(** * SATA boot shim (shim/boot_dev/sata_boot_shim.c)

    A shallow embedding of the SATA boot-device shim of redpill-lkm and the
    properties its specification states about it.

    The C code runs inside the kernel.  Its own state (three globals), the
    kernel objects it reads and writes (the sd driver's probe pointer, the
    vendor and model strings of a scsi_device) and the answers of the hardware
    live in one record, [world], that every function threads explicitly.
    Kernel routines whose bodies are not part of the module (the original
    sd_probe, scsi_remove_device, the host rescans) are fields of a record
    [kernel] that the functions take as a parameter.  A function that can
    dereference a NULL pointer returns an [option]; [None] is the kernel oops. *)

From Stdlib Require Import ZArith List String Bool Lia.
Import ListNotations.
Local Open Scope Z_scope.

(** ** Constants *)

Module Errno.
Definition ENOENT : Z := 2.
Definition EIO : Z := 5.
Definition EFAULT : Z := 14.
Definition EEXIST : Z := 17.
Definition EINVAL : Z := 22.
End Errno.
Import Errno.

Definition SCSI_RC16_LEN : Z := 32.
Definition SCSI_CMD_MAX_RETRIES : Z := 5.
Definition SCSI_CAP_MAX_RETRIES : nat := 3.
Definition SCSI_BUF_SIZE : nat := 512.

(* scsi/scsi.h and scsi/scsi_proto.h *)
Definition SERVICE_ACTION_IN_16 : Z := 0x9e.
Definition SAI_READ_CAPACITY_16 : Z := 0x10.
Definition READ_CAPACITY : Z := 0x25.
Definition ILLEGAL_REQUEST : Z := 0x05.
Definition UNIT_ATTENTION : Z := 0x06.
Definition TYPE_DISK : Z := 0x00.
Definition SCAN_WILD_CARD : Z := 0xFFFFFFFF.
(* the SATA tag of the port type in the vendor kernel's scsi_host_template;
   no property below depends on its value *)
Definition SYNO_PORT_TYPE_SATA : Z := 1.

(** ** Machine integers *)

Definition to_u64 (z : Z) : Z := z mod 2 ^ 64.

Definition to_s64 (z : Z) : Z :=
  let u := to_u64 z in if u <? 2 ^ 63 then u else u - 2 ^ 64.

(** ** Data *)

Record scsi_sense_hdr := mk_sshdr {
  sense_hdr_valid : bool;   (* what scsi_sense_valid reports for this header *)
  sense_key : Z;
  asc : Z;
  ascq : Z
}.

Definition scsi_sense_valid (sshdr : scsi_sense_hdr) : bool := sense_hdr_valid sshdr.

(** What one scsi_execute_req call brings back: its return value, the bytes
    the device transferred and the normalised sense header. *)
Record scsi_reply := mk_reply {
  reply_out : Z;
  reply_data : list Z;
  reply_sshdr : scsi_sense_hdr
}.

Record Scsi_Host := mk_host {
  host_no : Z;
  syno_port_type : Z;          (* host->hostt->syno_port_type *)
  has_user_scan : bool         (* host->transportt->user_scan is not NULL *)
}.

Record scsi_device := mk_sdev {
  sdev_id : Z;
  channel : Z;
  vendor : string;
  model : string;
  sdev_type : Z;
  host : Scsi_Host
}.

(** A generic struct device.  [is_sdev] is scsi_is_sdev_device; [sdev] is the
    scsi_device that to_scsi_device finds around it. *)
Record device := mk_dev {
  dev_name : string;
  is_sdev : bool;
  sdev : scsi_device
}.

(** Modelled from the spec: struct boot_media and the enumeration of its type
    field are declared in config/runtime_config.h, which is not among the
    sources.  The spec describes a device-class selector, which must be SATA
    for this shim and is USB for the other one, and a size threshold in MiB. *)
Inductive boot_media_type := BOOT_MEDIA_USB | BOOT_MEDIA_SATA.

Definition boot_media_type_eqb (a b : boot_media_type) : bool :=
  match a, b with
  | BOOT_MEDIA_USB, BOOT_MEDIA_USB => true
  | BOOT_MEDIA_SATA, BOOT_MEDIA_SATA => true
  | _, _ => false
  end.

Record boot_media := mk_boot_media {
  bm_type : boot_media_type;
  dom_size_mib : Z
}.

(** A probe entry point: the shim itself or a function of the kernel. *)
Inductive probe_fn := SD_PROBE_SHIM | KERNEL_FN (addr : nat).

(** What driver_find hands back: an ERR_PTR carrying a negative errno, NULL,
    or the sd driver. *)
Inductive driver_ptr := DRV_ERR (code : Z) | DRV_NULL | DRV_SD.

(** ** Log messages and observable events *)

Inductive log_level := LOG_CRT | LOG_ERR | LOG_WRN | LOG_INF | LOG_DBG | LOG_BUG.

Inductive log_msg :=
| MSG_kmalloc_failure
| MSG_invalid_sense
| MSG_drive_refused
| MSG_drive_busy (attempts_left : Z)
| MSG_preread_failed (attempts : Z)
| MSG_probing_sata_disk (id chan : Z) (vend mdl : string)
| MSG_capacity_unknown
| MSG_capacity_too_big (capacity_mib max : Z)
| MSG_already_shimmed (capacity_mib max : Z)
| MSG_shimmable_target (capacity_mib max : Z)
| MSG_new_device_not_sata
| MSG_shimming_device (vend mdl : string)
| MSG_existing_not_sata (name : string)
| MSG_existing_not_target (name : string)
| MSG_forcefully_reconnecting (name vend mdl : string)
| MSG_removing_device (hostno : Z)
| MSG_template_rescan (hostno : Z)
| MSG_generic_rescan (hostno : Z)
| MSG_bus_for_each_dev_returned (code : Z)
| MSG_unsupported_type (t : boot_media_type)
| MSG_already_registered
| MSG_sd_driver_not_found
| MSG_registered
| MSG_not_registered
| MSG_unregistered.

Inductive event :=
| EvLog (lvl : log_level) (msg : log_msg)
| EvScsiCmd (sdp : nat) (cmd : list Z) (bufflen : Z)
| EvMsleep (ms : Z)
| EvKfree.

(** ** The world *)

(** A buffer is a region of bytes addressed by offset. *)
Definition buf := nat -> Z.

Record world := mk_world {
  (* the module's globals *)
  max_dom_size_mib : Z;
  device_mapped : bool;
  org_sd_probe : option probe_fn;
  (* the sd driver *)
  sd_driver : driver_ptr;            (* result of driver_find for sd on the scsi bus *)
  drv_probe : option probe_fn;       (* drv->probe *)
  bus : list nat;                    (* devices of drv->bus, in iteration order *)
  (* memory: the struct device at each address *)
  devices : nat -> device;
  (* hardware: for each device, the reply to the i-th next command *)
  hw : nat -> nat -> list Z -> scsi_reply;
  (* allocator: the outcome of the i-th next kmalloc, NULL or a block with stale bytes *)
  heap : nat -> option buf;
  (* observable events, most recent first *)
  trace : list event
}.

Definition add_event (e : event) (w : world) : world :=
  mk_world (max_dom_size_mib w) (device_mapped w) (org_sd_probe w) (sd_driver w)
           (drv_probe w) (bus w) (devices w) (hw w) (heap w) (e :: trace w).

Definition set_hw (h : nat -> nat -> list Z -> scsi_reply) (w : world) : world :=
  mk_world (max_dom_size_mib w) (device_mapped w) (org_sd_probe w) (sd_driver w)
           (drv_probe w) (bus w) (devices w) h (heap w) (trace w).

Definition set_heap (h : nat -> option buf) (w : world) : world :=
  mk_world (max_dom_size_mib w) (device_mapped w) (org_sd_probe w) (sd_driver w)
           (drv_probe w) (bus w) (devices w) (hw w) h (trace w).

Definition set_max_dom_size_mib (v : Z) (w : world) : world :=
  mk_world v (device_mapped w) (org_sd_probe w) (sd_driver w)
           (drv_probe w) (bus w) (devices w) (hw w) (heap w) (trace w).

Definition set_device_mapped (b : bool) (w : world) : world :=
  mk_world (max_dom_size_mib w) b (org_sd_probe w) (sd_driver w)
           (drv_probe w) (bus w) (devices w) (hw w) (heap w) (trace w).

Definition set_org_sd_probe (f : option probe_fn) (w : world) : world :=
  mk_world (max_dom_size_mib w) (device_mapped w) f (sd_driver w)
           (drv_probe w) (bus w) (devices w) (hw w) (heap w) (trace w).

Definition set_drv_probe (f : option probe_fn) (w : world) : world :=
  mk_world (max_dom_size_mib w) (device_mapped w) (org_sd_probe w) (sd_driver w)
           f (bus w) (devices w) (hw w) (heap w) (trace w).

Definition set_bus (b : list nat) (w : world) : world :=
  mk_world (max_dom_size_mib w) (device_mapped w) (org_sd_probe w) (sd_driver w)
           (drv_probe w) b (devices w) (hw w) (heap w) (trace w).

Definition set_devices (d : nat -> device) (w : world) : world :=
  mk_world (max_dom_size_mib w) (device_mapped w) (org_sd_probe w) (sd_driver w)
           (drv_probe w) (bus w) d (hw w) (heap w) (trace w).

(** Pointwise update of a table indexed by addresses. *)
Definition upd {A : Type} (f : nat -> A) (p : nat) (v : A) : nat -> A :=
  fun q => if Nat.eqb q p then v else f q.

Definition set_vendor (sdp : nat) (s : string) (w : world) : world :=
  let d := devices w sdp in
  let sd := sdev d in
  set_devices
    (upd (devices w) sdp
       (mk_dev (dev_name d) (is_sdev d)
          (mk_sdev (sdev_id sd) (channel sd) s (model sd) (sdev_type sd) (host sd))))
    w.

Definition set_model (sdp : nat) (s : string) (w : world) : world :=
  let d := devices w sdp in
  let sd := sdev d in
  set_devices
    (upd (devices w) sdp
       (mk_dev (dev_name d) (is_sdev d)
          (mk_sdev (sdev_id sd) (channel sd) (vendor sd) s (sdev_type sd) (host sd))))
    w.

(** ** Kernel services with a fixed meaning *)

(** Modelled from the spec: the pr_loc_crt, pr_loc_err, pr_loc_wrn, pr_loc_inf,
    pr_loc_dbg and pr_loc_bug macros come from common.h, which is not among
    the sources; the spec has them log a message at a severity and do nothing
    else. *)
Definition pr_loc (lvl : log_level) (msg : log_msg) (w : world) : world :=
  add_event (EvLog lvl msg) w.

Definition msleep (ms : Z) (w : world) : world := add_event (EvMsleep ms) w.

Definition kfree (w : world) : world := add_event EvKfree w.

(** kmalloc: NULL, or a block with whatever the allocator left in it. *)
Definition kmalloc (size : nat) (w : world) : option buf * world :=
  (heap w O, set_heap (fun i => heap w (S i)) w).

Definition memset (buffer : buf) (c : Z) (n : nat) : buf :=
  fun i => if (i <? n)%nat then c else buffer i.

(** The device writes the bytes it transfers, at most [bufflen] of them, at
    the start of the buffer. *)
Definition dma_from_device (buffer : buf) (bufflen : nat) (data : list Z) : buf :=
  fun i => if (i <? Nat.min bufflen (List.length data))%nat then nth i data 0 else buffer i.

(** scsi_execute_req: the next reply of the hardware behind [sdp] to [cmd]. *)
Definition scsi_execute_req (sdp : nat) (cmd : list Z) (buffer : buf) (bufflen : nat)
    (w : world) : Z * buf * scsi_sense_hdr * world :=
  let r := hw w sdp O cmd in
  (reply_out r,
   dma_from_device buffer bufflen (reply_data r),
   reply_sshdr r,
   add_event (EvScsiCmd sdp cmd (Z.of_nat bufflen))
     (set_hw (upd (hw w) sdp (fun i => hw w sdp (S i))) w)).

Definition byte_at (buffer : buf) (i : nat) : Z := buffer i mod 256.

Definition get_unaligned_be (n : nat) (buffer : buf) (off : nat) : Z :=
  fold_left (fun acc i => acc * 256 + byte_at buffer (off + i)) (seq 0 n) 0.

Definition get_unaligned_be32 := get_unaligned_be 4.
Definition get_unaligned_be64 := get_unaligned_be 8.

Fixpoint store_byte (i : nat) (v : Z) (l : list Z) : list Z :=
  match l, i with
  | [], _ => []
  | _ :: t, O => v :: t
  | h :: t, S j => h :: store_byte j v t
  end.

(** ** The capacity prober *)

(** The sixteen bytes of the READ CAPACITY (16) command block. *)
Definition cmd_read_cap16 : list Z :=
  store_byte 13 SCSI_RC16_LEN
    (store_byte 1 SAI_READ_CAPACITY_16
       (store_byte 0 SERVICE_ACTION_IN_16 (repeat 0 16%nat))).

(** The ten bytes of the READ CAPACITY (10) command block (the last six bytes
    of the sixteen-byte array are never written and no part of the command). *)
Definition cmd_read_cap10 : list Z := READ_CAPACITY :: repeat 0 9%nat.

Definition scsi_read_cap16 (sdp : nat) (buffer : buf) (w : world)
    : Z * buf * scsi_sense_hdr * world :=
  let buffer := memset buffer 0 (Z.to_nat SCSI_RC16_LEN) in
  scsi_execute_req sdp cmd_read_cap16 buffer (Z.to_nat SCSI_RC16_LEN) w.

Definition scsi_read_cap10 (sdp : nat) (buffer : buf) (w : world)
    : Z * buf * scsi_sense_hdr * world :=
  let buffer := memset buffer 0 8 in
  scsi_execute_req sdp cmd_read_cap10 buffer 8 w.

(** How one pass through the body of the do-while loop ends.  Both the
    continue statements and the end of the body lead to the loop test. *)
Inductive flow := BREAK | RETURN (v : Z) | CONTINUE.

Definition hard_refusal_sense (sshdr : scsi_sense_hdr) : bool :=
  (sense_key sshdr =? ILLEGAL_REQUEST)
  && ((asc sshdr =? 0x20) || (asc sshdr =? 0x24))
  && (ascq sshdr =? 0x00).

Definition busy_sense (sshdr : scsi_sense_hdr) : bool :=
  (sense_key sshdr =? UNIT_ATTENTION) && (asc sshdr =? 0x29) && (ascq sshdr =? 0x00).

(** The body of the loop of opportunistic_read_capacity. *)
Definition read_capacity_attempt (sdp : nat) (use_cap16 : bool) (buffer : buf)
    (read_retry : Z) (w : world) : flow * bool * Z * buf * world :=
  let '(out, buffer, sshdr, w) :=
    if use_cap16 then scsi_read_cap16 sdp buffer w else scsi_read_cap10 sdp buffer w in
  if out =? 0 then (BREAK, use_cap16, out, buffer, w)
  else if out >? 0 then
    if negb use_cap16 then (CONTINUE, false, out, buffer, w)
    else
      let sense_valid := scsi_sense_valid sshdr in
      if negb sense_valid then
        (CONTINUE, use_cap16, out, buffer, pr_loc LOG_DBG MSG_invalid_sense w)
      else if hard_refusal_sense sshdr then
        (RETURN (- EINVAL), use_cap16, out, buffer, pr_loc LOG_ERR MSG_drive_refused w)
      else if busy_sense sshdr then
        (CONTINUE, use_cap16, out, buffer,
         msleep 500 (pr_loc LOG_DBG (MSG_drive_busy (read_retry - 1)) w))
      else (CONTINUE, use_cap16, out, buffer, w)
  else (CONTINUE, use_cap16, out, buffer, w).

(** do { body } while (--read_retry).  The result carries the value of an
    early return, the last [out], the buffer and [read_retry] at the exit.
    The counter starts at SCSI_CAP_MAX_RETRIES, so the case 0 is never
    entered. *)
Fixpoint read_capacity_loop (read_retry : nat) (sdp : nat) (use_cap16 : bool)
    (buffer : buf) (w : world) : option Z * Z * buf * Z * world :=
  let '(fl, use_cap16, out, buffer, w) :=
    read_capacity_attempt sdp use_cap16 buffer (Z.of_nat read_retry) w in
  match fl with
  | BREAK => (None, out, buffer, Z.of_nat read_retry, w)
  | RETURN v => (Some v, out, buffer, Z.of_nat read_retry, w)
  | CONTINUE =>
      match read_retry with
      | S r =>
          match r with
          | S _ => read_capacity_loop r sdp use_cap16 buffer w
          | O => (None, out, buffer, 0, w)
          end
      | O => (None, out, buffer, 0, w)
      end
  end.

(** The size in full mebibytes that the buffer of a successful command encodes. *)
Definition size_mb_of (buffer : buf) : Z :=
  let sector_size := get_unaligned_be32 buffer 8 in
  let lba := get_unaligned_be64 buffer 0 in
  to_s64 (to_u64 (to_u64 (lba + 1) * sector_size) / 1024 / 1024).

Definition opportunistic_read_capacity (sdp : nat) (w : world) : Z * world :=
  let use_cap16 := true in
  match kmalloc SCSI_BUF_SIZE w with
  | (None, w) => (- EFAULT, pr_loc LOG_CRT MSG_kmalloc_failure w)
  | (Some buffer, w) =>
      match read_capacity_loop SCSI_CAP_MAX_RETRIES sdp use_cap16 buffer w with
      | (Some v, _, _, _, w) => (v, w)
      | (None, out, buffer, read_retry, w) =>
          if negb (out =? 0) then
            (- EIO,
             kfree (pr_loc LOG_ERR
                      (MSG_preread_failed (Z.of_nat SCSI_CAP_MAX_RETRIES - read_retry)) w))
          else (size_mb_of buffer, kfree w)
      end
  end.

(** ** The eligibility classifier *)

Definition to_scsi_device (dev : nat) : nat := dev.

Definition is_sata_disk (dev : nat) (w : world) : bool :=
  if negb (is_sdev (devices w dev)) then false
  else
    let sdp := sdev (devices w (to_scsi_device dev)) in
    if negb (sdev_type sdp =? TYPE_DISK)
       || negb (syno_port_type (host sdp) =? SYNO_PORT_TYPE_SATA)
    then false
    else true.

Definition is_shim_target (sdp : nat) (w : world) : bool * world :=
  let sd := sdev (devices w sdp) in
  let w := pr_loc LOG_DBG
             (MSG_probing_sata_disk (sdev_id sd) (channel sd) (vendor sd) (model sd)) w in
  let '(capacity_mib, w) := opportunistic_read_capacity sdp w in
  if capacity_mib <? 0 then (false, pr_loc LOG_DBG MSG_capacity_unknown w)
  else if to_u64 capacity_mib >? max_dom_size_mib w then
    (false, pr_loc LOG_DBG (MSG_capacity_too_big capacity_mib (max_dom_size_mib w)) w)
  else if device_mapped w then
    (false, pr_loc LOG_WRN (MSG_already_shimmed capacity_mib (max_dom_size_mib w)) w)
  else
    (true, pr_loc LOG_DBG (MSG_shimmable_target capacity_mib (max_dom_size_mib w)) w).

(** ** Kernel routines taken as parameters *)

(** The build-time identity strings and the kernel routines whose bodies lie
    outside the module.  [kernel_probe a] is the function at kernel address
    [a] called on a device; the other three are called on the path that
    reconnects a device. *)
Record kernel := mk_kernel {
  CONFIG_SYNO_SATA_DOM_VENDOR : string;
  CONFIG_SYNO_SATA_DOM_MODEL : string;
  kernel_probe : nat -> nat -> world -> Z * world;
  scsi_remove_device : nat -> world -> world;
  user_scan : Scsi_Host -> Z -> Z -> Z -> world -> world;
  _scsi_scan_host_selected : Scsi_Host -> Z -> Z -> Z -> Z -> world -> world
}.

(** A call through a probe pointer.  NULL is an oops; a pointer to the shim
    itself would recurse without end and is an oops as well. *)
Definition call_probe (K : kernel) (fn : option probe_fn) (dev : nat) (w : world)
    : option (Z * world) :=
  match fn with
  | None => None
  | Some SD_PROBE_SHIM => None
  | Some (KERNEL_FN a) => Some (kernel_probe K a dev w)
  end.

(** ** The intercepting probe *)

Definition sd_probe_shim (K : kernel) (dev : nat) (w : world) : option (Z * world) :=
  let w :=
    if negb (is_sata_disk dev w) then pr_loc LOG_DBG MSG_new_device_not_sata w
    else
      let sdp := to_scsi_device dev in
      let '(target, w) := is_shim_target sdp w in
      if target then
        let w := pr_loc LOG_DBG
                   (MSG_shimming_device (CONFIG_SYNO_SATA_DOM_VENDOR K)
                      (CONFIG_SYNO_SATA_DOM_MODEL K)) w in
        let w := set_vendor sdp (CONFIG_SYNO_SATA_DOM_VENDOR K) w in
        let w := set_model sdp (CONFIG_SYNO_SATA_DOM_MODEL K) w in
        set_device_mapped true w
      else w in
  (* proxy: *)
  call_probe K (org_sd_probe w) dev w.

(** ** The reconciler of existing devices *)

Definition on_existing_device (K : kernel) (dev : nat) (data : option nat) (w : world)
    : Z * world :=
  if negb (is_sata_disk dev w) then
    (0, pr_loc LOG_DBG (MSG_existing_not_sata (dev_name (devices w dev))) w)
  else
    let sdp := to_scsi_device dev in
    let '(target, w) := is_shim_target sdp w in
    if negb target then
      (0, pr_loc LOG_DBG (MSG_existing_not_target (dev_name (devices w dev))) w)
    else
      let sd := sdev (devices w sdp) in
      let w := pr_loc LOG_INF
                 (MSG_forcefully_reconnecting (dev_name (devices w dev)) (vendor sd) (model sd))
                 w in
      let host := host sd in
      let w := pr_loc LOG_DBG (MSG_removing_device (host_no host)) w in
      let w := scsi_remove_device K sdp w in
      let w :=
        if has_user_scan host then
          let w := pr_loc LOG_DBG (MSG_template_rescan (host_no host)) w in
          user_scan K host SCAN_WILD_CARD SCAN_WILD_CARD SCAN_WILD_CARD w
        else
          let w := pr_loc LOG_DBG (MSG_generic_rescan (host_no host)) w in
          _scsi_scan_host_selected K host SCAN_WILD_CARD SCAN_WILD_CARD SCAN_WILD_CARD 1 w in
      (0, w).

(** bus_for_each_dev calls [fn] on the devices of the bus in turn for as long
    as it returns 0, and returns the last value. *)
Fixpoint bus_for_each_dev (devs : list nat) (data : option nat)
    (fn : nat -> option nat -> world -> Z * world) (w : world) : Z * world :=
  match devs with
  | [] => (0, w)
  | dev :: rest =>
      let '(error, w) := fn dev data w in
      if error =? 0 then bus_for_each_dev rest data fn w else (error, w)
  end.

Definition probe_existing_devices (K : kernel) (w : world) : world :=
  let '(code, w) := bus_for_each_dev (bus w) None (on_existing_device K) w in
  pr_loc LOG_DBG (MSG_bus_for_each_dev_returned code) w.

(** ** Install and uninstall *)

Definition register_sata_boot_shim (K : kernel) (boot_dev_config : boot_media) (w : world)
    : option (Z * world) :=
  if negb (boot_media_type_eqb (bm_type boot_dev_config) BOOT_MEDIA_SATA) then
    Some (- EINVAL, pr_loc LOG_BUG (MSG_unsupported_type (bm_type boot_dev_config)) w)
  else
    match org_sd_probe w with
    | Some _ => Some (- EEXIST, pr_loc LOG_BUG MSG_already_registered w)
    | None =>
        match sd_driver w with
        | DRV_ERR code => Some (code, pr_loc LOG_CRT MSG_sd_driver_not_found w)
        | DRV_NULL => None
        | DRV_SD =>
            let w := set_max_dom_size_mib (dom_size_mib boot_dev_config) w in
            let w := set_org_sd_probe (drv_probe w) w in
            let w := set_drv_probe (Some SD_PROBE_SHIM) w in
            let w := probe_existing_devices K w in
            Some (0, pr_loc LOG_DBG MSG_registered w)
        end
    end.

Definition unregister_sata_boot_shim (w : world) : option (Z * world) :=
  match org_sd_probe w with
  | None => Some (- ENOENT, pr_loc LOG_BUG MSG_not_registered w)
  | Some org =>
      match sd_driver w with
      | DRV_ERR code => Some (code, pr_loc LOG_CRT MSG_sd_driver_not_found w)
      | DRV_NULL => None
      | DRV_SD =>
          let w := set_drv_probe (Some org) w in
          let w := set_org_sd_probe None w in
          let w := set_max_dom_size_mib 0 w in
          Some (0, pr_loc LOG_DBG MSG_unregistered w)
      end
  end.

(** ** Vocabulary of the statements *)

(** The fields the engine owns or patches: the three globals, the driver and
    its probe pointer, the bus and the device structures. *)
Definition same_engine (w w' : world) : Prop :=
  max_dom_size_mib w' = max_dom_size_mib w /\
  device_mapped w' = device_mapped w /\
  org_sd_probe w' = org_sd_probe w /\
  sd_driver w' = sd_driver w /\
  drv_probe w' = drv_probe w /\
  bus w' = bus w /\
  devices w' = devices w.

(** The environment a capacity query reads: the allocator and the hardware. *)
Definition same_env (w w' : world) : Prop :=
  heap w' = heap w /\ hw w' = hw w.

Definition is_scsi_cmd (e : event) : bool :=
  match e with EvScsiCmd _ _ _ => true | _ => false end.

Definition is_msleep (e : event) : bool :=
  match e with EvMsleep _ => true | _ => false end.

Definition commands_issued (w : world) : nat :=
  List.length (filter is_scsi_cmd (trace w)).

Definition sleeps (w : world) : nat :=
  List.length (filter is_msleep (trace w)).

(** The i-th next reply of the device to READ CAPACITY (16). *)
Definition next_reply (w : world) (sdp : nat) (i : nat) : scsi_reply :=
  hw w sdp i cmd_read_cap16.

(** The world in which the device has already given its first [n] replies. *)
Definition skip_replies (sdp : nat) (n : nat) (w : world) : world :=
  set_hw (upd (hw w) sdp (fun i => hw w sdp (n + i)%nat)) w.

(** The world right after one READ CAPACITY (16) has been executed, and the
    buffer it leaves. *)
Definition sent16 (sdp : nat) (w : world) : world :=
  add_event (EvScsiCmd sdp cmd_read_cap16 32) (skip_replies sdp 1 w).

Definition got16 (b : buf) (r : scsi_reply) : buf :=
  dma_from_device (memset b 0 32) 32 (reply_data r).

(** An event that is no command other than READ CAPACITY (16). *)
Definition only_cap16 (e : event) : Prop :=
  forall p c l, e = EvScsiCmd p c l -> c = cmd_read_cap16.

(** The rescan that on_existing_device asks for on a host. *)
Definition rescan (K : kernel) (h : Scsi_Host) (w : world) : world :=
  if has_user_scan h then
    user_scan K h SCAN_WILD_CARD SCAN_WILD_CARD SCAN_WILD_CARD
      (pr_loc LOG_DBG (MSG_template_rescan (host_no h)) w)
  else
    _scsi_scan_host_selected K h SCAN_WILD_CARD SCAN_WILD_CARD SCAN_WILD_CARD 1
      (pr_loc LOG_DBG (MSG_generic_rescan (host_no h)) w).

(** The command failed and the drive told it will never answer it. *)
Definition hard_refusal (r : scsi_reply) : Prop :=
  0 < reply_out r /\
  scsi_sense_valid (reply_sshdr r) = true /\
  sense_key (reply_sshdr r) = ILLEGAL_REQUEST /\
  (asc (reply_sshdr r) = 0x20 \/ asc (reply_sshdr r) = 0x24) /\
  ascq (reply_sshdr r) = 0x00.

(** The command failed because the drive is busy for now. *)
Definition transient_busy (r : scsi_reply) : Prop :=
  0 < reply_out r /\
  scsi_sense_valid (reply_sshdr r) = true /\
  sense_key (reply_sshdr r) = UNIT_ATTENTION /\
  asc (reply_sshdr r) = 0x29 /\
  ascq (reply_sshdr r) = 0x00.

(** The command failed without a hard refusal. *)
Definition soft_failure (r : scsi_reply) : Prop :=
  reply_out r <> 0 /\ ~ hard_refusal r.

(** ** Sample hardware, devices and kernel *)

Definition be_bytes (n : nat) (v : Z) : list Z :=
  map (fun i => (v / 256 ^ Z.of_nat (n - 1 - i)) mod 256) (seq 0 n).

Definition no_sense : scsi_sense_hdr := mk_sshdr false 0 0 0.

Definition reply_cap16 (lba sector_size : Z) : scsi_reply :=
  mk_reply 0 (be_bytes 8 lba ++ be_bytes 4 sector_size ++ repeat 0 20%nat) no_sense.

Definition reply_cap10 (lba sector_size : Z) : scsi_reply :=
  mk_reply 0 (be_bytes 4 lba ++ be_bytes 4 sector_size) no_sense.

(** CHECK CONDITION with a valid sense header. *)
Definition reply_check_condition (key a q : Z) : scsi_reply :=
  mk_reply 0x08000002 [] (mk_sshdr true key a q).

Definition reply_busy : scsi_reply := reply_check_condition UNIT_ATTENTION 0x29 0x00.
Definition reply_refused : scsi_reply := reply_check_condition ILLEGAL_REQUEST 0x20 0x00.

Definition sata_host : Scsi_Host := mk_host 6 SYNO_PORT_TYPE_SATA true.
Definition usb_host : Scsi_Host := mk_host 7 2 false.

Definition sata_disk : device :=
  mk_dev "6:0:0:0" true (mk_sdev 0 0 "QEMU" "HARDDISK" TYPE_DISK sata_host).

Definition usb_disk : device :=
  mk_dev "7:0:0:0" true (mk_sdev 0 0 "Kingston" "DataTraveler" TYPE_DISK usb_host).

(** A disk of [mib] mebibytes in sectors of 512 bytes that answers READ
    CAPACITY (16) at once. *)
Definition disk_of_mib (mib : Z) : nat -> list Z -> scsi_reply :=
  fun _ _ => reply_cap16 (mib * 2048 - 1) 512.

(** A disk that is busy for its first [n] replies. *)
Definition busy_then (n : nat) (d : nat -> list Z -> scsi_reply)
    : nat -> list Z -> scsi_reply :=
  fun i cmd => if (i <? n)%nat then reply_busy else d (i - n)%nat cmd.

(** An old drive of 100 MiB: it refuses READ CAPACITY (16) as an invalid
    command and answers READ CAPACITY (10). *)
Definition legacy_disk : nat -> list Z -> scsi_reply :=
  fun _ cmd =>
    match cmd with
    | op :: _ => if op =? READ_CAPACITY then reply_cap10 204799 512 else reply_refused
    | [] => reply_refused
    end.

Definition stale_block : buf := fun _ => 0xAA.

(** Address 0 holds a SATA disk, every other address a USB disk. *)
Definition sample_devices : nat -> device :=
  fun p => match p with O => sata_disk | _ => usb_disk end.

(** A world with the sd driver present, probing through the kernel function
    at address 1, and the given hardware behind every device. *)
Definition sample_world (threshold : Z) (mapped : bool) (org : option probe_fn)
    (disk : nat -> list Z -> scsi_reply) : world :=
  mk_world threshold mapped org DRV_SD
           (match org with Some _ => Some SD_PROBE_SHIM | None => Some (KERNEL_FN 1) end)
           [0%nat; 1%nat] sample_devices (fun _ => disk) (fun _ => Some stale_block) [].

(** A kernel whose sd_probe returns 0 when it sees the boot DOM identity and 1
    otherwise, and whose remove and rescans leave the world alone. *)
Definition sample_kernel : kernel :=
  mk_kernel "SATADOM-" "TYPE D 3SE"
    (fun _ dev w =>
       (if String.eqb (vendor (sdev (devices w dev))) "SATADOM-"
           && String.eqb (model (sdev (devices w dev))) "TYPE D 3SE"
        then 0 else 1, w))
    (fun _ w => w)
    (fun _ _ _ _ w => w)
    (fun _ _ _ _ _ w => w).

(** A second SATA disk on the same host. *)
Definition sata_disk_2 : device :=
  mk_dev "6:0:1:0" true (mk_sdev 1 0 "QEMU" "HARDDISK" TYPE_DISK sata_host).

Definition twin_devices : nat -> device :=
  fun p => match p with O => sata_disk | S O => sata_disk_2 | _ => usb_disk end.

(** Two SATA disks of 100 MiB already on the bus, the shim not installed. *)
Definition twin_world : world :=
  mk_world 0 false None DRV_SD (Some (KERNEL_FN 1)) [0%nat; 1%nat] twin_devices
           (fun _ => disk_of_mib 100) (fun _ => Some stale_block) [].

Definition on_bus (p : nat) (w : world) : bool := existsb (Nat.eqb p) (bus w).

(** A rescan that reconnects: every SCSI device of the host found at the
    addresses 0 to 3 and missing from the bus is put back on it and probed
    through drv->probe. *)
Definition reprobe (h : Scsi_Host) (w : world) : world :=
  fold_left
    (fun w p =>
       if is_sdev (devices w p)
          && (host_no (host (sdev (devices w p))) =? host_no h)
          && negb (on_bus p w)
       then
         let w := set_bus (bus w ++ [p]) w in
         match drv_probe w with
         | Some SD_PROBE_SHIM =>
             match sd_probe_shim sample_kernel p w with
             | Some (_, w') => w'
             | None => w
             end
         | Some (KERNEL_FN a) => snd (kernel_probe sample_kernel a p w)
         | None => w
         end
       else w)
    [0%nat; 1%nat; 2%nat; 3%nat] w.

(** The sample kernel with a scsi_remove_device that takes the device off the
    bus and rescans that reconnect. *)
Definition reconnecting_kernel : kernel :=
  mk_kernel (CONFIG_SYNO_SATA_DOM_VENDOR sample_kernel)
    (CONFIG_SYNO_SATA_DOM_MODEL sample_kernel)
    (kernel_probe sample_kernel)
    (fun p w => set_bus (filter (fun q => negb (Nat.eqb q p)) (bus w)) w)
    (fun h _ _ _ w => reprobe h w)
    (fun h _ _ _ _ w => reprobe h w).

Definition installed_world : world :=
  sample_world 200 false (Some (KERNEL_FN 1)) (disk_of_mib 100).

Definition mapped_world : world :=
  sample_world 200 true (Some (KERNEL_FN 1)) (disk_of_mib 100).

Definition idle_world : world :=
  sample_world 0 false None (disk_of_mib 100).

Definition legacy_world : world :=
  sample_world 200 false (Some (KERNEL_FN 1)) legacy_disk.

Definition busy_world (n : nat) : world :=
  sample_world 200 false (Some (KERNEL_FN 1)) (busy_then n (disk_of_mib 100)).

(** Busy once, then a refusal for good. *)
Definition refusing_world : world :=
  sample_world 200 false (Some (KERNEL_FN 1)) (busy_then 1 (fun _ _ => reply_refused)).

Definition sata_config : boot_media := mk_boot_media BOOT_MEDIA_SATA 200.
Definition usb_config : boot_media := mk_boot_media BOOT_MEDIA_USB 200.

(** ** Further vocabulary *)

Definition is_kfree (e : event) : bool :=
  match e with EvKfree => true | _ => false end.

(** How many times kfree has been called. *)
Definition frees (w : world) : nat :=
  List.length (filter is_kfree (trace w)).

(** The milliseconds spent in msleep. *)
Definition slept_ms (w : world) : Z :=
  fold_right (fun e acc => match e with EvMsleep ms => ms + acc | _ => acc end) 0 (trace w).

(** An event that is no command other than READ CAPACITY (16) sent to [sdp]
    with a transfer length of 32 bytes. *)
Definition sent_to (sdp : nat) (e : event) : Prop :=
  forall p c l, e = EvScsiCmd p c l -> p = sdp /\ c = cmd_read_cap16 /\ l = 32.

(** The command failed and left no valid sense header. *)
Definition invalid_sense (r : scsi_reply) : Prop :=
  0 < reply_out r /\ scsi_sense_valid (reply_sshdr r) = false.

(** The value of a sequence of bytes read as a big-endian number. *)
Definition be_value (l : list Z) : Z :=
  fold_left (fun acc b => acc * 256 + b mod 256) l 0.

(** From [w] to [w'] nothing was sent but at most [n] commands READ CAPACITY
    (16) to the device [sdp], and the hardware behind the other devices was
    left alone. *)
Definition only_probes (sdp : nat) (n : nat) (w w' : world) : Prop :=
  (exists tr,
     trace w' = tr ++ trace w /\
     Forall (sent_to sdp) tr /\
     (List.length (filter is_scsi_cmd tr) <= n)%nat) /\
  forall p, p <> sdp -> hw w' p = hw w p.

(** ** Further sample worlds *)

(** The allocator has nothing to give. *)
Definition oom_world : world :=
  mk_world 200 false (Some (KERNEL_FN 1)) DRV_SD (Some SD_PROBE_SHIM)
           [0%nat; 1%nat] sample_devices (fun _ => disk_of_mib 100) (fun _ => None) [].

(** A disk of 300 MiB behind the installed shim. *)
Definition big_disk_world : world :=
  sample_world 200 false (Some (KERNEL_FN 1)) (disk_of_mib 300).

(** A device that reports success and transfers the eight bytes of the last
    block address only. *)
Definition short_reply_world : world :=
  sample_world 200 false (Some (KERNEL_FN 1))
    (fun _ _ => mk_reply 0 (be_bytes 8 204799) no_sense).

(** The same disk as in [installed_world] with other stale bytes in the
    block that kmalloc hands out. *)
Definition other_stale_world : world :=
  mk_world 200 false (Some (KERNEL_FN 1)) DRV_SD (Some SD_PROBE_SHIM)
           [0%nat; 1%nat] sample_devices (fun _ => disk_of_mib 100)
           (fun _ => Some (fun i => Z.of_nat i)) [].

(** A disk whose first [n] replies fail without a valid sense header. *)
Definition invalid_sense_then (n : nat) (d : nat -> list Z -> scsi_reply)
    : nat -> list Z -> scsi_reply :=
  fun i cmd => if (i <? n)%nat then mk_reply 0x00070000 [] no_sense else d (i - n)%nat cmd.

Definition invalid_sense_world (n : nat) : world :=
  sample_world 200 false (Some (KERNEL_FN 1)) (invalid_sense_then n (disk_of_mib 100)).

(** Only USB disks on the bus, the shim not installed. *)
Definition usb_only_world : world :=
  mk_world 0 false None DRV_SD (Some (KERNEL_FN 1)) [1%nat; 2%nat] sample_devices
           (fun _ => disk_of_mib 100) (fun _ => Some stale_block) [].

(** The lookup of the sd driver fails with -ENODEV. *)
Definition no_driver_world (org : option probe_fn) : world :=
  mk_world 200 false org (DRV_ERR (-19)) None [] sample_devices
           (fun _ => disk_of_mib 100) (fun _ => Some stale_block) [].

(** * Tactics *)

Ltac open_attempt :=
  unfold read_capacity_attempt, scsi_read_cap16, scsi_read_cap10, scsi_execute_req,
    scsi_sense_valid, pr_loc, msleep.

Ltac split_ifs :=
  repeat match goal with
         | |- context [if ?c then _ else _] => destruct c eqn:?
         | H : context [if ?c then _ else _] |- _ => destruct c eqn:?
         end.

Ltac engine_fields H :=
  destruct H as (? & ? & ? & ? & ? & ? & ?).

(** * Properties of the capacity prober *)

Lemma same_engine_refl w : same_engine w w.
Proof. repeat split. Qed.

Lemma same_engine_trans a b c : same_engine a b -> same_engine b c -> same_engine a c.
Proof.
  unfold same_engine; intros (H1 & H2 & H3 & H4 & H5 & H6 & H7) (G1 & G2 & G3 & G4 & G5 & G6 & G7).
  repeat split; congruence.
Qed.

Lemma same_engine_pr_loc lvl msg w : same_engine w (pr_loc lvl msg w).
Proof. repeat split. Qed.

(** The value computed from a buffer fits in 44 bits and is never negative. *)
Lemma size_mb_of_range b : 0 <= size_mb_of b < 2 ^ 44.
Proof.
  unfold size_mb_of.
  set (p := to_u64 (to_u64 (get_unaligned_be64 b 0 + 1) * get_unaligned_be32 b 8)).
  assert (Hp : 0 <= p < 2 ^ 64) by (apply Z.mod_pos_bound; lia).
  assert (Hq : 0 <= p / 1024 / 1024 < 2 ^ 44).
  { rewrite Z.div_div by lia. split.
    - apply Z.div_pos; lia.
    - apply Z.div_lt_upper_bound; [lia|].
      change (1024 * 1024 * 2 ^ 44) with (2 ^ 64). lia. }
  unfold to_s64, to_u64.
  rewrite Z.mod_small by (split; [lia | apply Z.lt_trans with (2 ^ 44); [lia | reflexivity]]).
  destruct (Z.ltb_spec (p / 1024 / 1024) (2 ^ 63)) as [_ | Hge]; [exact Hq|].
  exfalso. assert (2 ^ 44 < 2 ^ 63) by reflexivity. lia.
Qed.

(** After READ CAPACITY (16) the decoded size is a function of the bytes the
    device sent, whatever the buffer held before. *)
Lemma get_unaligned_be_ext n b b' off :
  (forall i, (off <= i < off + n)%nat -> byte_at b i = byte_at b' i) ->
  get_unaligned_be n b off = get_unaligned_be n b' off.
Proof.
  intros H. unfold get_unaligned_be. generalize 0 as acc.
  assert (Hin : forall i, In i (seq 0 n) -> byte_at b (off + i) = byte_at b' (off + i)).
  { intros i Hi. apply in_seq in Hi. apply H. lia. }
  clear H. induction (seq 0 n) as [|i l IH]; intros acc; simpl; [reflexivity|].
  rewrite (Hin i) by (left; reflexivity). apply IH.
  intros j Hj. apply Hin. right. exact Hj.
Qed.

Lemma byte_at_got16 b b' r i :
  (i < 32)%nat -> byte_at (got16 b r) i = byte_at (got16 b' r) i.
Proof.
  intros Hi. unfold byte_at, got16, dma_from_device, memset.
  apply Nat.ltb_lt in Hi. rewrite Hi. reflexivity.
Qed.

Lemma size_mb_of_cap16 b b' r :
  size_mb_of (got16 b r) = size_mb_of (got16 b' r).
Proof.
  unfold size_mb_of, get_unaligned_be32, get_unaligned_be64.
  rewrite (get_unaligned_be_ext 4 (got16 b r) (got16 b' r) 8),
          (get_unaligned_be_ext 8 (got16 b r) (got16 b' r) 0);
    [reflexivity | |]; intros i Hi; apply byte_at_got16; lia.
Qed.

Lemma hard_refusal_sense_iff h :
  hard_refusal_sense h = true <->
  sense_key h = ILLEGAL_REQUEST /\ (asc h = 0x20 \/ asc h = 0x24) /\ ascq h = 0x00.
Proof.
  unfold hard_refusal_sense.
  rewrite !andb_true_iff, orb_true_iff, !Z.eqb_eq. tauto.
Qed.

Lemma busy_sense_iff h :
  busy_sense h = true <->
  sense_key h = UNIT_ATTENTION /\ asc h = 0x29 /\ ascq h = 0x00.
Proof.
  unfold busy_sense. rewrite !andb_true_iff, !Z.eqb_eq. tauto.
Qed.

(** One pass of the loop touches nothing the engine owns, consumes one reply
    of the device, and returns early only with -EINVAL. *)
Lemma attempt_inv sdp u b rr w fl u' out b' w' :
  read_capacity_attempt sdp u b rr w = (fl, u', out, b', w') ->
  same_engine w w' /\
  heap w' = heap w /\
  hw w' = upd (hw w) sdp (fun i => hw w sdp (S i)) /\
  commands_issued w' = S (commands_issued w) /\
  (sleeps w' <= S (sleeps w))%nat /\
  (forall v, fl = RETURN v -> v = - EINVAL) /\
  (fl = BREAK <-> out = 0).
Proof.
  open_attempt. destruct u; simpl; split_ifs; intros H; inversion H; subst; clear H;
    unfold same_engine, commands_issued, sleeps; simpl;
    (repeat split; try reflexivity; try congruence; try discriminate; try lia;
     try (intros; apply Z.eqb_eq; assumption);
     try (intros;
          match goal with
          | E : (_ =? 0) = false |- _ => apply Z.eqb_neq in E; congruence
          end)).
Qed.

Lemma attempt16_shape sdp b rr w fl u' out b' w' :
  read_capacity_attempt sdp true b rr w = (fl, u', out, b', w') ->
  u' = true /\ out = reply_out (next_reply w sdp 0) /\ b' = got16 b (next_reply w sdp 0).
Proof.
  open_attempt. simpl.
  repeat match goal with |- context [if ?c then _ else _] => destruct c end;
    intros H; inversion H; subst; repeat split.
Qed.

Lemma attempt16_success sdp b rr w :
  reply_out (next_reply w sdp 0) = 0 ->
  read_capacity_attempt sdp true b rr w
  = (BREAK, true, 0, got16 b (next_reply w sdp 0), sent16 sdp w).
Proof.
  intros H. open_attempt. simpl. unfold next_reply in H. rewrite H. reflexivity.
Qed.

Lemma attempt16_refused sdp b rr w :
  hard_refusal (next_reply w sdp 0) ->
  read_capacity_attempt sdp true b rr w
  = (RETURN (- EINVAL), true, reply_out (next_reply w sdp 0),
     got16 b (next_reply w sdp 0), pr_loc LOG_ERR MSG_drive_refused (sent16 sdp w)).
Proof.
  intros (Hout & Hv & Hrest). unfold next_reply in *. open_attempt. simpl.
  unfold scsi_sense_valid in Hv.
  destruct (Z.eqb_spec (reply_out (hw w sdp 0%nat cmd_read_cap16)) 0) as [E | _]; [lia|].
  destruct (Z.gtb_spec (reply_out (hw w sdp 0%nat cmd_read_cap16)) 0) as [_ | E]; [|lia].
  rewrite Hv. simpl.
  apply hard_refusal_sense_iff in Hrest. rewrite Hrest. reflexivity.
Qed.

Lemma attempt16_busy sdp b rr w :
  transient_busy (next_reply w sdp 0) ->
  read_capacity_attempt sdp true b rr w
  = (CONTINUE, true, reply_out (next_reply w sdp 0), got16 b (next_reply w sdp 0),
     msleep 500 (pr_loc LOG_DBG (MSG_drive_busy (rr - 1)) (sent16 sdp w))).
Proof.
  intros (Hout & Hv & Hk & Ha & Hq). unfold next_reply in *. open_attempt. simpl.
  unfold scsi_sense_valid in Hv.
  destruct (Z.eqb_spec (reply_out (hw w sdp 0%nat cmd_read_cap16)) 0) as [E | _]; [lia|].
  destruct (Z.gtb_spec (reply_out (hw w sdp 0%nat cmd_read_cap16)) 0) as [_ | E]; [|lia].
  rewrite Hv. simpl.
  unfold hard_refusal_sense, busy_sense. rewrite Hk, Ha, Hq. reflexivity.
Qed.

Lemma transient_busy_soft r : transient_busy r -> soft_failure r.
Proof.
  intros (Hout & Hv & Hk & Ha & Hq). split; [lia|].
  intros (_ & _ & Hk' & _). rewrite Hk in Hk'. discriminate.
Qed.

Lemma attempt16_soft sdp b rr w :
  soft_failure (next_reply w sdp 0) ->
  exists w',
    read_capacity_attempt sdp true b rr w
    = (CONTINUE, true, reply_out (next_reply w sdp 0), got16 b (next_reply w sdp 0), w').
Proof.
  intros (Hout & Hnot). unfold hard_refusal, next_reply in *. open_attempt. simpl.
  unfold scsi_sense_valid in Hnot.
  destruct (Z.eqb_spec (reply_out (hw w sdp 0%nat cmd_read_cap16)) 0) as [E | _]; [contradiction|].
  destruct (Z.gtb_spec (reply_out (hw w sdp 0%nat cmd_read_cap16)) 0) as [Hpos | _];
    [|eexists; reflexivity].
  destruct (sense_hdr_valid (reply_sshdr (hw w sdp 0%nat cmd_read_cap16))) eqn:Hv; simpl;
    [|eexists; reflexivity].
  destruct (hard_refusal_sense (reply_sshdr (hw w sdp 0%nat cmd_read_cap16))) eqn:Hh.
  - exfalso. apply Hnot. apply hard_refusal_sense_iff in Hh. tauto.
  - destruct (busy_sense _); eexists; reflexivity.
Qed.

(** The loop, unfolded once. *)
Lemma read_capacity_loop_eq read_retry sdp u b w :
  read_capacity_loop read_retry sdp u b w =
  let '(fl, u', out, b', w') :=
    read_capacity_attempt sdp u b (Z.of_nat read_retry) w in
  match fl with
  | BREAK => (None, out, b', Z.of_nat read_retry, w')
  | RETURN v => (Some v, out, b', Z.of_nat read_retry, w')
  | CONTINUE =>
      match read_retry with
      | S (S r) => read_capacity_loop (S r) sdp u' b' w'
      | _ => (None, out, b', 0, w')
      end
  end.
Proof.
  destruct read_retry as [|[|r]]; reflexivity.
Qed.

(** While the device keeps failing softly and the budget lasts, the loop
    goes on with the rest of the budget and the rest of the replies. *)
Lemma read_capacity_loop_skip n :
  forall read_retry sdp b w,
    (n < read_retry)%nat ->
    (forall i, (i < n)%nat -> soft_failure (next_reply w sdp i)) ->
    exists b' w',
      read_capacity_loop read_retry sdp true b w
      = read_capacity_loop (read_retry - n) sdp true b' w' /\
      same_engine w w' /\
      heap w' = heap w /\
      (forall i, next_reply w' sdp i = next_reply w sdp (n + i)) /\
      commands_issued w' = (commands_issued w + n)%nat /\
      (sleeps w' <= sleeps w + n)%nat.
Proof.
  induction n as [|n IH]; intros read_retry sdp b w Hlt Hsoft.
  - exists b, w. rewrite Nat.sub_0_r, !Nat.add_0_r.
    repeat split; auto using same_engine_refl.
  - destruct read_retry as [|[|r]]; try lia.
    destruct (attempt16_soft sdp b (Z.of_nat (S (S r))) w) as [w1 Hatt].
    { apply Hsoft. lia. }
    destruct (attempt_inv _ _ _ _ _ _ _ _ _ _ Hatt) as (He & Hh & Hhw & Hc & Hs & _).
    destruct (IH (S r) sdp (got16 b (next_reply w sdp 0)) w1)
      as (b' & w' & Heq & He' & Hh' & Hn' & Hc' & Hs').
    { lia. }
    { intros i Hi. unfold next_reply. rewrite Hhw. unfold upd. rewrite Nat.eqb_refl.
      apply Hsoft. lia. }
    exists b', w'. rewrite read_capacity_loop_eq, Hatt.
    change (S (S r) - S n)%nat with (S r - n)%nat.
    split; [exact Heq|].
    split; [eapply same_engine_trans; eassumption|].
    split; [congruence|].
    split; [|lia].
    intros i. rewrite Hn'. unfold next_reply. rewrite Hhw. unfold upd.
    rewrite Nat.eqb_refl. reflexivity.
Qed.

(** The loop touches nothing the engine owns, leaves the allocator alone and
    returns early only with -EINVAL. *)
Lemma read_capacity_loop_inv n :
  forall sdp u b w ret out b' rr w',
    read_capacity_loop n sdp u b w = (ret, out, b', rr, w') ->
    same_engine w w' /\ heap w' = heap w /\ (forall v, ret = Some v -> v = - EINVAL).
Proof.
  induction n as [|n IH]; intros sdp u b w ret out b' rr w'; rewrite read_capacity_loop_eq;
    destruct (read_capacity_attempt sdp u b _ w) as [[[[fl u1] out1] b1] w1] eqn:Hatt;
    destruct (attempt_inv _ _ _ _ _ _ _ _ _ _ Hatt) as (He & Hh & _ & _ & _ & Hret & _).
  - destruct fl; intros H; inversion H; subst; (split; [|split]); auto;
      intros v' Hv'; inversion Hv'; subst; auto.
  - destruct fl; [| |destruct n as [|n]];
      try (intros H; inversion H; subst; (split; [|split]); auto;
           intros v' Hv'; inversion Hv'; subst; auto; fail).
    intros H. apply IH in H. destruct H as (He' & Hh' & Hret').
    split; [eapply same_engine_trans; eauto | split; [congruence | assumption]].
Qed.

(** Two worlds with the same allocator and hardware give the same pass. *)
Lemma attempt_env sdp u b rr w w2 fl u' out b' w' :
  same_env w w2 ->
  read_capacity_attempt sdp u b rr w = (fl, u', out, b', w') ->
  exists w2',
    read_capacity_attempt sdp u b rr w2 = (fl, u', out, b', w2') /\ same_env w' w2'.
Proof.
  intros (Hh & Hw). open_attempt. rewrite Hw.
  destruct u; simpl;
    repeat match goal with |- context [if ?c then _ else _] => destruct c end;
    intros H; inversion H; subst; eexists; (split; [reflexivity|]);
    unfold same_env; simpl; rewrite ?Hw, ?Hh; split; reflexivity.
Qed.

Lemma read_capacity_loop_env n :
  forall sdp u b w w2 ret out b' rr w',
    same_env w w2 ->
    read_capacity_loop n sdp u b w = (ret, out, b', rr, w') ->
    exists w2',
      read_capacity_loop n sdp u b w2 = (ret, out, b', rr, w2') /\ same_env w' w2'.
Proof.
  induction n as [|n IH]; intros sdp u b w w2 ret out b' rr w' Henv;
    rewrite !read_capacity_loop_eq;
    destruct (read_capacity_attempt sdp u b _ w) as [[[[fl u1] out1] b1] w1] eqn:Hatt;
    destruct (attempt_env _ _ _ _ _ _ _ _ _ _ _ Henv Hatt) as (w21 & Hatt2 & Henv1);
    rewrite Hatt2.
  - destruct fl; intros H; inversion H; subst; eauto.
  - destruct fl; try (intros H; inversion H; subst; eauto; fail).
    destruct n as [|n]; [intros H; inversion H; subst; eauto|].
    intros H. eapply IH; eauto.
Qed.

(** The capacity reported depends on the allocator and the hardware only. *)
Lemma opportunistic_read_capacity_env sdp w w2 :
  same_env w w2 ->
  fst (opportunistic_read_capacity sdp w) = fst (opportunistic_read_capacity sdp w2).
Proof.
  intros Henv. unfold opportunistic_read_capacity, kmalloc.
  destruct Henv as (Hh & Hw). rewrite Hh.
  destruct (heap w 0%nat) as [b0|]; [|reflexivity].
  destruct (read_capacity_loop SCSI_CAP_MAX_RETRIES sdp true b0 (set_heap _ w))
    as [[[[ret out] b'] rr] w'] eqn:Hloop.
  eapply read_capacity_loop_env in Hloop as (w2' & Hloop2 & _).
  - rewrite Hloop2. destruct ret as [v|]; [reflexivity|].
    cbv beta iota. destruct (negb (out =? 0)); cbn [fst]; reflexivity.
  - unfold same_env; simpl. rewrite Hw. split; reflexivity.
Qed.

(** The prober changes nothing the engine owns. *)
Lemma opportunistic_read_capacity_frame sdp w :
  same_engine w (snd (opportunistic_read_capacity sdp w)).
Proof.
  unfold opportunistic_read_capacity, kmalloc.
  destruct (heap w 0%nat) as [b0|]; [|repeat split].
  destruct (read_capacity_loop SCSI_CAP_MAX_RETRIES sdp true b0 (set_heap _ w))
    as [[[[ret out] b'] rr] w'] eqn:Hloop.
  apply read_capacity_loop_inv in Hloop as (He & _ & _).
  destruct ret; [exact He|].
  destruct (negb (out =? 0)); simpl; destruct He as (? & ? & ? & ? & ? & ? & ?);
    repeat split; assumption.
Qed.

(** The prober reports one of three errors or a size below 2^44 MiB. *)
Lemma opportunistic_read_capacity_range sdp w :
  let c := fst (opportunistic_read_capacity sdp w) in
  c = - EFAULT \/ c = - EINVAL \/ c = - EIO \/ 0 <= c < 2 ^ 44.
Proof.
  unfold opportunistic_read_capacity, kmalloc.
  destruct (heap w 0%nat) as [b0|]; [|left; reflexivity].
  destruct (read_capacity_loop SCSI_CAP_MAX_RETRIES sdp true b0 (set_heap _ w))
    as [[[[ret out] b'] rr] w'] eqn:Hloop.
  apply read_capacity_loop_inv in Hloop as (_ & _ & Hret).
  destruct ret as [v|]; simpl.
  - right; left. auto.
  - destruct (negb (out =? 0)); simpl; [right; right; left; reflexivity|].
    right; right; right. apply size_mb_of_range.
Qed.

Lemma next_reply_set_heap h sdp w i :
  next_reply (set_heap h w) sdp i = next_reply w sdp i.
Proof. reflexivity. Qed.

Lemma next_reply_skip sdp n w i :
  next_reply (skip_replies sdp n w) sdp i = next_reply w sdp (n + i).
Proof.
  unfold next_reply, skip_replies, upd. simpl. rewrite Nat.eqb_refl. reflexivity.
Qed.

(** A budget spent on soft failures leaves the loop with a failed command. *)
Lemma read_capacity_loop_exhausted read_retry sdp b w :
  (0 < read_retry)%nat ->
  (forall i, (i < read_retry)%nat -> soft_failure (next_reply w sdp i)) ->
  exists out b' w',
    read_capacity_loop read_retry sdp true b w = (None, out, b', 0, w') /\ out <> 0.
Proof.
  intros Hpos Hsoft.
  destruct (read_capacity_loop_skip (read_retry - 1) read_retry sdp b w)
    as (b1 & w1 & Heq & _ & _ & Hn & _ & _); [lia | intros; apply Hsoft; lia |].
  replace (read_retry - (read_retry - 1))%nat with 1%nat in Heq by lia.
  assert (Hlast : soft_failure (next_reply w1 sdp 0)).
  { rewrite Hn. apply Hsoft. lia. }
  destruct (attempt16_soft sdp b1 (Z.of_nat 1) w1 Hlast) as (w2 & Hatt).
  rewrite Heq, read_capacity_loop_eq, Hatt.
  do 3 eexists. split; [reflexivity | apply Hlast].
Qed.

Lemma budget_exhausted sdp w :
  heap w 0%nat <> None ->
  (forall i, (i < SCSI_CAP_MAX_RETRIES)%nat -> soft_failure (next_reply w sdp i)) ->
  fst (opportunistic_read_capacity sdp w) = - EIO.
Proof.
  intros Hheap Hsoft. unfold opportunistic_read_capacity, kmalloc.
  destruct (heap w 0%nat) as [b0|]; [|congruence].
  destruct (read_capacity_loop_exhausted SCSI_CAP_MAX_RETRIES sdp b0
              (set_heap (fun i => heap w (S i)) w))
    as (out & b' & w' & Heq & Hout); [unfold SCSI_CAP_MAX_RETRIES; lia | exact Hsoft |].
  rewrite Heq. apply Z.eqb_neq in Hout. rewrite Hout. reflexivity.
Qed.

Lemma attempt16_trace sdp b rr w fl u' out b' w' :
  read_capacity_attempt sdp true b rr w = (fl, u', out, b', w') ->
  exists tr, trace w' = tr ++ trace w /\ Forall only_cap16 tr.
Proof.
  unfold read_capacity_attempt, scsi_read_cap16, scsi_execute_req, pr_loc, msleep. simpl.
  repeat match goal with |- context [if ?c then _ else _] => destruct c end;
    intros H; inversion H; subst; simpl;
    match goal with
    | |- exists tr, ?l = _ /\ _ =>
        match l with
        | ?a :: ?b :: ?c :: trace w => exists [a; b; c]
        | ?a :: ?b :: trace w => exists [a; b]
        | ?a :: trace w => exists [a]
        end
    end;
    (split; [reflexivity|]);
    repeat constructor; intros p c l E; inversion E; reflexivity.
Qed.

Lemma read_capacity_loop_trace n :
  forall sdp b w ret out b' rr w',
    read_capacity_loop n sdp true b w = (ret, out, b', rr, w') ->
    exists tr, trace w' = tr ++ trace w /\ Forall only_cap16 tr.
Proof.
  induction n as [|n IH]; intros sdp b w ret out b' rr w'; rewrite read_capacity_loop_eq;
    destruct (read_capacity_attempt sdp true b _ w) as [[[[fl u1] out1] b1] w1] eqn:Hatt;
    destruct (attempt16_trace _ _ _ _ _ _ _ _ _ Hatt) as (tr1 & Htr1 & Hall1);
    destruct (attempt16_shape _ _ _ _ _ _ _ _ _ Hatt) as (Hu & _); subst u1.
  - destruct fl; intros H; inversion H; subst; eauto.
  - destruct fl; [| |destruct n as [|n]];
      try (intros H; inversion H; subst; eauto; fail).
    intros H. apply IH in H. destruct H as (tr2 & Htr2 & Hall2).
    exists (tr2 ++ tr1). rewrite Htr2, Htr1, app_assoc. split; [reflexivity|].
    apply Forall_app; split; assumption.
Qed.

Lemma read_cap10_never_sent sdp w :
  exists tr,
    trace (snd (opportunistic_read_capacity sdp w)) = tr ++ trace w /\ Forall only_cap16 tr.
Proof.
  unfold opportunistic_read_capacity, kmalloc.
  destruct (heap w 0%nat) as [b0|].
  - destruct (read_capacity_loop SCSI_CAP_MAX_RETRIES sdp true b0 (set_heap _ w))
      as [[[[ret out] b'] rr] w'] eqn:Hloop.
    apply read_capacity_loop_trace in Hloop as (tr & Htr & Hall). simpl in Htr.
    destruct ret; [eauto|].
    destruct (negb (out =? 0)); simpl; rewrite Htr.
    + exists (EvKfree :: EvLog LOG_ERR (MSG_preread_failed (Z.of_nat SCSI_CAP_MAX_RETRIES - rr)) :: tr).
      split; [reflexivity|]. repeat constructor; try assumption; intros p c l E; discriminate.
    + exists (EvKfree :: tr). split; [reflexivity|].
      constructor; [intros p c l E; discriminate | assumption].
  - exists [EvLog LOG_CRT MSG_kmalloc_failure]. split; [reflexivity|].
    repeat constructor. intros p c l E; discriminate.
Qed.

(** C1.  The downgrade to the legacy command does not take place.  On a
    drive that refuses READ CAPACITY (16) as an illegal request with
    additional sense 0x20 and answers READ CAPACITY (10), here with 204800
    sectors of 512 bytes, the prober sends the one modern command, logs the
    refusal and returns -EINVAL; the legacy command is never sent. *)
Theorem legacy_drive_is_refused :
  hard_refusal (next_reply legacy_world 0 0) /\
  hw legacy_world 0%nat 0%nat cmd_read_cap10 = reply_cap10 204799 512 /\
  fst (opportunistic_read_capacity 0 legacy_world) = - EINVAL /\
  trace (snd (opportunistic_read_capacity 0 legacy_world))
  = [EvLog LOG_ERR MSG_drive_refused; EvScsiCmd 0 cmd_read_cap16 32].
Proof.
  repeat split; try reflexivity. left; reflexivity.
Qed.

(** C6.  When the device, after n soft failures with n below the budget,
    answers with a hard refusal (a failed command whose valid sense is
    ILLEGAL_REQUEST with additional sense 0x20 or 0x24 and qualifier 0x00),
    the prober returns -EINVAL.  The refused command and the error message are
    the last two events, so nothing is sent and no sleep is taken after the
    refusal: the commands sent are the n before it and the refused one, and
    the sleeps are at most the n of the soft failures, none when n = 0. *)
Theorem hard_refusal_fails_at_once sdp w n :
  heap w 0%nat <> None ->
  (n < SCSI_CAP_MAX_RETRIES)%nat ->
  (forall i, (i < n)%nat -> soft_failure (next_reply w sdp i)) ->
  hard_refusal (next_reply w sdp n) ->
  fst (opportunistic_read_capacity sdp w) = - EINVAL /\
  (exists tl,
     trace (snd (opportunistic_read_capacity sdp w))
     = EvLog LOG_ERR MSG_drive_refused :: EvScsiCmd sdp cmd_read_cap16 32 :: tl) /\
  commands_issued (snd (opportunistic_read_capacity sdp w))
  = (commands_issued w + n + 1)%nat /\
  (sleeps (snd (opportunistic_read_capacity sdp w)) <= sleeps w + n)%nat.
Proof.
  intros Hheap Hn Hsoft Hhard. unfold opportunistic_read_capacity, kmalloc.
  destruct (heap w 0%nat) as [b0|]; [|congruence].
  set (wa := set_heap (fun i => heap w (S i)) w).
  destruct (read_capacity_loop_skip n SCSI_CAP_MAX_RETRIES sdp b0 wa Hn Hsoft)
    as (b1 & w1 & Heq & _ & _ & Hnext & Hcount & Hsleeps).
  assert (Hhard1 : hard_refusal (next_reply w1 sdp 0)).
  { rewrite Hnext, Nat.add_0_r. exact Hhard. }
  assert (Hrun : read_capacity_loop SCSI_CAP_MAX_RETRIES sdp true b0 wa
                 = (Some (- EINVAL), reply_out (next_reply w1 sdp 0),
                    got16 b1 (next_reply w1 sdp 0),
                    Z.of_nat (SCSI_CAP_MAX_RETRIES - n),
                    pr_loc LOG_ERR MSG_drive_refused (sent16 sdp w1))).
  { rewrite Heq, read_capacity_loop_eq, (attempt16_refused sdp b1 _ w1 Hhard1).
    reflexivity. }
  rewrite Hrun. cbn [fst snd].
  split; [reflexivity|].
  split; [exists (trace w1); reflexivity|].
  change (commands_issued wa) with (commands_issued w) in Hcount.
  change (sleeps wa) with (sleeps w) in Hsleeps.
  split.
  - change (commands_issued (pr_loc LOG_ERR MSG_drive_refused (sent16 sdp w1)))
      with (S (commands_issued w1)). lia.
  - change (sleeps (pr_loc LOG_ERR MSG_drive_refused (sent16 sdp w1)))
      with (sleeps w1). exact Hsleeps.
Qed.

(** C7.  When the device answers n times in a row that it is busy (a failed
    command whose valid sense is UNIT_ATTENTION, 0x29, 0x00), with n below the
    budget of 3, and then answers with success, the prober returns a size,
    the same value as on the device that gives that reply at once.  When each
    of the 3 attempts of the budget fails without a hard refusal, the prober
    returns -EIO. *)
Theorem busy_replies_within_budget sdp w n :
  heap w 0%nat <> None ->
  ((n < SCSI_CAP_MAX_RETRIES)%nat ->
   (forall i, (i < n)%nat -> transient_busy (next_reply w sdp i)) ->
   reply_out (next_reply w sdp n) = 0 ->
   fst (opportunistic_read_capacity sdp w)
   = fst (opportunistic_read_capacity sdp (skip_replies sdp n w)) /\
   0 <= fst (opportunistic_read_capacity sdp w)) /\
  ((forall i, (i < SCSI_CAP_MAX_RETRIES)%nat -> soft_failure (next_reply w sdp i)) ->
   fst (opportunistic_read_capacity sdp w) = - EIO).
Proof.
  intros Hheap. split.
  - intros Hn Hbusy Hok.
    assert (Hval : fst (opportunistic_read_capacity sdp w)
                   = size_mb_of (got16 (fun _ => 0) (next_reply w sdp n))).
    { unfold opportunistic_read_capacity, kmalloc.
      destruct (heap w 0%nat) as [b0|]; [|congruence].
      set (wa := set_heap (fun i => heap w (S i)) w).
      destruct (read_capacity_loop_skip n SCSI_CAP_MAX_RETRIES sdp b0 wa Hn)
        as (b1 & w1 & Heq & _ & _ & Hnext & _ & _).
      { intros i Hi. apply transient_busy_soft, Hbusy, Hi. }
      assert (Hok1 : reply_out (next_reply w1 sdp 0) = 0).
      { rewrite Hnext, Nat.add_0_r. exact Hok. }
      rewrite Heq, read_capacity_loop_eq, (attempt16_success sdp b1 _ w1 Hok1). simpl.
      rewrite Hnext, Nat.add_0_r. apply size_mb_of_cap16. }
    split.
    + rewrite Hval.
      unfold opportunistic_read_capacity, kmalloc.
      change (heap (skip_replies sdp n w)) with (heap w).
      destruct (heap w 0%nat) as [b0|]; [|congruence].
      set (wa := set_heap (fun i => heap w (S i)) (skip_replies sdp n w)).
      assert (Hr : next_reply wa sdp 0 = next_reply w sdp n).
      { unfold wa. rewrite next_reply_set_heap, next_reply_skip, Nat.add_0_r. reflexivity. }
      assert (Hok1 : reply_out (next_reply wa sdp 0) = 0) by (rewrite Hr; exact Hok).
      clearbody wa.
      rewrite read_capacity_loop_eq, (attempt16_success sdp b0 _ wa Hok1). simpl.
      rewrite Hr. apply size_mb_of_cap16.
    + rewrite Hval. apply size_mb_of_range.
  - intros Hsoft. apply budget_exhausted; assumption.
Qed.

(** * Properties of the classifier *)

Lemma to_u64_small c : 0 <= c < 2 ^ 44 -> to_u64 c = c.
Proof.
  intros H. unfold to_u64. apply Z.mod_small.
  split; [lia | apply Z.lt_trans with (2 ^ 44); [lia | reflexivity]].
Qed.

(** The decision of the classifier as one boolean expression, with the frame
    of the call. *)
Lemma is_shim_target_decision sdp w :
  let c := fst (opportunistic_read_capacity sdp w) in
  fst (is_shim_target sdp w)
  = negb (c <? 0) && (c <=? max_dom_size_mib w) && negb (device_mapped w) /\
  same_engine w (snd (is_shim_target sdp w)) /\
  (0 <= c -> c <= max_dom_size_mib w -> device_mapped w = true ->
   In (EvLog LOG_WRN (MSG_already_shimmed c (max_dom_size_mib w)))
      (trace (snd (is_shim_target sdp w)))).
Proof.
  intros c. unfold is_shim_target.
  set (w0 := pr_loc LOG_DBG _ w).
  assert (Hc : fst (opportunistic_read_capacity sdp w0) = c).
  { apply opportunistic_read_capacity_env. split; reflexivity. }
  pose proof (opportunistic_read_capacity_frame sdp w0) as Hf.
  pose proof (opportunistic_read_capacity_range sdp w0) as Hr.
  destruct (opportunistic_read_capacity sdp w0) as [c0 w2]. simpl in Hc, Hf, Hr.
  subst c0.
  assert (Hf' : same_engine w w2).
  { eapply same_engine_trans; [apply (same_engine_pr_loc LOG_DBG) | exact Hf]. }
  destruct Hf' as (Hmax & Hmap & Horg & Hdrv & Hprobe & Hbus & Hdev).
  rewrite Hmax, Hmap.
  destruct (Z.ltb_spec c 0) as [Hneg | Hpos]; simpl.
  - repeat split; try assumption. intros; lia.
  - assert (Hsmall : to_u64 c = c).
    { apply to_u64_small. unfold EFAULT, EINVAL, EIO in Hr. lia. }
    rewrite Hsmall.
    destruct (Z.gtb_spec c (max_dom_size_mib w)) as [Hbig | Hfit].
    + destruct (Z.leb_spec c (max_dom_size_mib w)); [lia|]. simpl.
      repeat split; try assumption. intros; lia.
    + destruct (Z.leb_spec c (max_dom_size_mib w)); [|lia]. simpl.
      destruct (device_mapped w) eqn:Hm; simpl;
        (split; [reflexivity | split; [repeat split; simpl; congruence |]]).
      * intros _ _ _. left. reflexivity.
      * intros _ _ Hm'. discriminate Hm'.
Qed.

Lemma is_shim_target_when_mapped sdp w :
  device_mapped w = true -> fst (is_shim_target sdp w) = false.
Proof.
  intros Hm. destruct (is_shim_target_decision sdp w) as (Hd & _ & _).
  rewrite Hd, Hm. apply andb_false_r.
Qed.

Lemma is_shim_target_when_fits sdp w :
  0 <= fst (opportunistic_read_capacity sdp w) <= max_dom_size_mib w ->
  device_mapped w = false ->
  fst (is_shim_target sdp w) = true.
Proof.
  intros (Hlo & Hhi) Hm. destruct (is_shim_target_decision sdp w) as (Hd & _ & _).
  rewrite Hd, Hm.
  apply Z.ltb_ge in Hlo. apply Z.leb_le in Hhi. rewrite Hlo, Hhi. reflexivity.
Qed.

(** C2.  The classifier answers true exactly when the capacity probe
    succeeds with a value c that does not exceed max_dom_size_mib and
    device_mapped is still false.  Hence a failed probe or a capacity above
    the threshold gives false whatever the flag, and once the flag is set
    every classification gives false. *)
Theorem is_shim_target_iff sdp w :
  let c := fst (opportunistic_read_capacity sdp w) in
  (fst (is_shim_target sdp w) = true <->
   0 <= c /\ c <= max_dom_size_mib w /\ device_mapped w = false) /\
  (c < 0 \/ max_dom_size_mib w < c -> fst (is_shim_target sdp w) = false) /\
  (device_mapped w = true -> fst (is_shim_target sdp w) = false).
Proof.
  intros c. destruct (is_shim_target_decision sdp w) as (Hd & _ & _).
  fold c in Hd. rewrite Hd.
  destruct (Z.ltb_spec c 0), (Z.leb_spec c (max_dom_size_mib w)), (device_mapped w);
    simpl; repeat split; intros; try reflexivity; try discriminate; try lia;
    try tauto; try (exfalso; intuition (discriminate || lia)).
Qed.

(** * Properties of the interception engine and of the reconciler *)

Section Engine.

Variable K : kernel.

(** The world in which the original probe is entered. *)
Lemma sd_probe_shim_proxy dev w :
  exists w1,
    sd_probe_shim K dev w = call_probe K (org_sd_probe w) dev w1 /\
    org_sd_probe w1 = org_sd_probe w /\
    (is_sata_disk dev w = false -> w1 = pr_loc LOG_DBG MSG_new_device_not_sata w) /\
    (is_sata_disk dev w = true -> fst (is_shim_target dev w) = false ->
     w1 = snd (is_shim_target dev w)) /\
    (is_sata_disk dev w = true -> fst (is_shim_target dev w) = true ->
     vendor (sdev (devices w1 dev)) = CONFIG_SYNO_SATA_DOM_VENDOR K /\
     model (sdev (devices w1 dev)) = CONFIG_SYNO_SATA_DOM_MODEL K /\
     device_mapped w1 = true /\
     forall p, p <> dev -> devices w1 p = devices w p).
Proof.
  unfold sd_probe_shim, to_scsi_device.
  destruct (is_sata_disk dev w) eqn:Hsata; simpl.
  - destruct (is_shim_target_decision dev w) as (_ & Hf & _).
    destruct (is_shim_target dev w) as [target w2]. simpl in Hf.
    destruct Hf as (Hmax & Hmap & Horg & Hdrv & Hprobe & Hbus & Hdev).
    destruct target; simpl.
    + eexists. split; [rewrite <- Horg; reflexivity|].
      split; [exact Horg|]. repeat split; try discriminate.
      * simpl. unfold upd. simpl. rewrite !Nat.eqb_refl. reflexivity.
      * simpl. unfold upd. simpl. rewrite !Nat.eqb_refl. reflexivity.
      * intros p Hp. simpl. unfold upd. simpl. apply Nat.eqb_neq in Hp.
        rewrite !Hp, Hdev. reflexivity.
    + exists w2. rewrite Horg. repeat split; discriminate.
  - eexists. split; [reflexivity|]. repeat split; discriminate.
Qed.

(** C3.  With a kernel function saved in org_sd_probe, the shim ends in a
    call of that function on the device and returns what it returns.  For a
    device that is not a SATA disk the world handed to it is the incoming one
    with one debug message added: no command is sent and no device structure
    or global is written. *)
Theorem sd_probe_shim_delegates dev w a :
  org_sd_probe w = Some (KERNEL_FN a) ->
  exists w1,
    sd_probe_shim K dev w = Some (kernel_probe K a dev w1) /\
    (is_sata_disk dev w = false ->
     w1 = pr_loc LOG_DBG MSG_new_device_not_sata w /\
     devices w1 = devices w /\
     same_engine w w1 /\
     commands_issued w1 = commands_issued w).
Proof.
  intros Horg. destruct (sd_probe_shim_proxy dev w) as (w1 & Heq & _ & Hnot & _).
  exists w1. rewrite Heq, Horg. split; [reflexivity|].
  intros Hsata. rewrite (Hnot Hsata). repeat split.
Qed.

(** C4.  For a SATA disk whose probed capacity does not exceed the threshold
    while no device has been mapped, the original probe is entered in a world
    in which the vendor and model of the device are the configured ones and
    device_mapped is true; no other device structure has changed. *)
Theorem sd_probe_shim_rewrites_identity dev w a :
  org_sd_probe w = Some (KERNEL_FN a) ->
  is_sata_disk dev w = true ->
  0 <= fst (opportunistic_read_capacity dev w) <= max_dom_size_mib w ->
  device_mapped w = false ->
  exists w1,
    sd_probe_shim K dev w = Some (kernel_probe K a dev w1) /\
    vendor (sdev (devices w1 dev)) = CONFIG_SYNO_SATA_DOM_VENDOR K /\
    model (sdev (devices w1 dev)) = CONFIG_SYNO_SATA_DOM_MODEL K /\
    device_mapped w1 = true /\
    (forall p, p <> dev -> devices w1 p = devices w p).
Proof.
  intros Horg Hsata Hcap Hmap.
  destruct (sd_probe_shim_proxy dev w) as (w1 & Heq & _ & _ & _ & Hyes).
  exists w1. rewrite Heq, Horg. split; [reflexivity|].
  apply Hyes; [exact Hsata|].
  apply is_shim_target_when_fits; assumption.
Qed.

(** The callback returns 0 on every path. *)
Lemma on_existing_device_returns_0 dev data w :
  fst (on_existing_device K dev data w) = 0.
Proof.
  unfold on_existing_device.
  destruct (negb (is_sata_disk dev w)); [reflexivity|].
  destruct (is_shim_target (to_scsi_device dev) w) as [target w2].
  destruct (negb target); reflexivity.
Qed.

(** A callback that always returns 0 is called on every device of the bus. *)
Lemma bus_for_each_dev_all fn data :
  (forall dev w, fst (fn dev data w) = 0) ->
  forall devs w,
    bus_for_each_dev devs data fn w
    = (0, fold_left (fun w dev => snd (fn dev data w)) devs w).
Proof.
  intros Hfn. induction devs as [|dev rest IH]; intros w; simpl; [reflexivity|].
  specialize (Hfn dev w). destruct (fn dev data w) as [error w1]. simpl in *.
  subst error. simpl. apply IH.
Qed.

(** A device that is skipped leaves everything the engine owns as it was. *)
Lemma on_existing_device_skip dev data w :
  is_sata_disk dev w = false \/ fst (is_shim_target dev w) = false ->
  same_engine w (snd (on_existing_device K dev data w)).
Proof.
  unfold on_existing_device, to_scsi_device.
  destruct (is_sata_disk dev w) eqn:Hsata; simpl; [|intros _; repeat split].
  intros [H | H]; [discriminate|].
  destruct (is_shim_target_decision dev w) as (_ & Hf & _).
  destruct (is_shim_target dev w) as [target w2]. simpl in *. subst target. simpl.
  destruct Hf as (? & ? & ? & ? & ? & ? & ?). repeat split; assumption.
Qed.

(** A target is handed to the kernel for removal and rescan; the callback
    itself writes nothing the engine owns. *)
Lemma on_existing_device_target dev data w :
  is_sata_disk dev w = true ->
  fst (is_shim_target dev w) = true ->
  exists w0,
    same_engine w w0 /\
    snd (on_existing_device K dev data w)
    = rescan K (host (sdev (devices w dev))) (scsi_remove_device K dev w0).
Proof.
  intros Hsata Ht. unfold on_existing_device, to_scsi_device. rewrite Hsata. simpl.
  destruct (is_shim_target_decision dev w) as (_ & Hf & _).
  destruct (is_shim_target dev w) as [target w2]. simpl in Ht, Hf. subst target. simpl.
  assert (Hd : devices w2 = devices w) by (engine_fields Hf; assumption).
  rewrite Hd. eexists. split; [|unfold rescan; destruct (has_user_scan _); reflexivity].
  engine_fields Hf. repeat split; assumption.
Qed.

Lemma on_existing_device_mapped dev data w :
  device_mapped w = true ->
  same_engine w (snd (on_existing_device K dev data w)).
Proof.
  intros Hmap. apply on_existing_device_skip. right.
  apply is_shim_target_when_mapped. exact Hmap.
Qed.

Lemma reconcile_mapped data devs :
  forall w,
    device_mapped w = true ->
    same_engine w (fold_left (fun w dev => snd (on_existing_device K dev data w)) devs w).
Proof.
  induction devs as [|dev rest IH]; intros w Hmap; simpl; [apply same_engine_refl|].
  pose proof (on_existing_device_mapped dev data w Hmap) as Hf.
  eapply same_engine_trans; [exact Hf|]. apply IH.
  destruct Hf as (_ & Hm & _). congruence.
Qed.

(** C8.  The callback returns 0 for every device, so bus_for_each_dev runs
    it on every device of the bus and returns 0.  A device that is not a SATA
    disk or not a target leaves the device structures untouched; and a SATA
    disk with a capacity within the threshold that is visited once
    device_mapped is set gets the warning logged and keeps its structure. *)
Theorem on_existing_device_never_stops :
  (forall dev data w, fst (on_existing_device K dev data w) = 0) /\
  (forall devs data w,
     bus_for_each_dev devs data (on_existing_device K) w
     = (0, fold_left (fun w dev => snd (on_existing_device K dev data w)) devs w)) /\
  (forall dev data w,
     is_sata_disk dev w = false \/ fst (is_shim_target dev w) = false ->
     devices (snd (on_existing_device K dev data w)) = devices w) /\
  (forall dev data w,
     is_sata_disk dev w = true ->
     fst (is_shim_target dev w) = true ->
     exists w0,
       same_engine w w0 /\
       snd (on_existing_device K dev data w)
       = rescan K (host (sdev (devices w dev))) (scsi_remove_device K dev w0)) /\
  (forall dev data w,
     is_sata_disk dev w = true ->
     device_mapped w = true ->
     0 <= fst (opportunistic_read_capacity dev w) <= max_dom_size_mib w ->
     let w' := snd (on_existing_device K dev data w) in
     In (EvLog LOG_WRN
           (MSG_already_shimmed (fst (opportunistic_read_capacity dev w))
              (max_dom_size_mib w)))
        (trace w') /\
     devices w' = devices w /\
     device_mapped w' = true).
Proof.
  split; [exact on_existing_device_returns_0|].
  split; [intros devs data w; apply bus_for_each_dev_all;
          intros; apply on_existing_device_returns_0|].
  split; [|split].
  - intros dev data w H. apply (on_existing_device_skip dev data w H).
  - apply on_existing_device_target.
  - intros dev data w Hsata Hmap Hcap w'.
    pose proof (on_existing_device_mapped dev data w Hmap) as Hf.
    fold w' in Hf. destruct Hf as (_ & Hm & _ & _ & _ & _ & Hd).
    split; [|split; [exact Hd | congruence]].
    unfold w', on_existing_device, to_scsi_device. rewrite Hsata. simpl.
    destruct (is_shim_target_decision dev w) as (_ & _ & Hlog).
    pose proof (is_shim_target_when_mapped dev w Hmap) as Hfalse.
    destruct (is_shim_target dev w) as [target w2]. simpl in Hfalse, Hlog.
    subst target. simpl. apply in_cons. apply Hlog; [lia | lia | exact Hmap].
Qed.

End Engine.

(** * Properties of install and uninstall *)

Section Lifecycle.

Variable K : kernel.

Lemma register_wrong_type cfg w :
  bm_type cfg <> BOOT_MEDIA_SATA ->
  register_sata_boot_shim K cfg w
  = Some (- EINVAL, pr_loc LOG_BUG (MSG_unsupported_type (bm_type cfg)) w).
Proof.
  intros H. unfold register_sata_boot_shim.
  destruct (bm_type cfg); [reflexivity | congruence].
Qed.

Lemma register_twice cfg w :
  bm_type cfg = BOOT_MEDIA_SATA ->
  org_sd_probe w <> None ->
  register_sata_boot_shim K cfg w = Some (- EEXIST, pr_loc LOG_BUG MSG_already_registered w).
Proof.
  intros Ht Horg. unfold register_sata_boot_shim. rewrite Ht. simpl.
  destruct (org_sd_probe w); [reflexivity | congruence].
Qed.

(** Installing again once a device has been mapped: the reconciler skips
    every device and the flag stays set. *)
Lemma register_keeps_mapped cfg w :
  bm_type cfg = BOOT_MEDIA_SATA ->
  org_sd_probe w = None ->
  sd_driver w = DRV_SD ->
  device_mapped w = true ->
  exists w2,
    register_sata_boot_shim K cfg w = Some (0, w2) /\
    device_mapped w2 = true /\
    org_sd_probe w2 = drv_probe w /\
    drv_probe w2 = Some SD_PROBE_SHIM /\
    max_dom_size_mib w2 = dom_size_mib cfg /\
    devices w2 = devices w.
Proof.
  intros Ht Horg Hdrv Hmap. unfold register_sata_boot_shim.
  rewrite Ht, Horg, Hdrv. simpl. unfold probe_existing_devices.
  set (w1 := set_drv_probe _ _).
  rewrite (bus_for_each_dev_all (on_existing_device K) None
             (fun dev w => on_existing_device_returns_0 K dev None w)).
  pose proof (reconcile_mapped K None (bus w1) w1 Hmap) as Hf.
  set (wf := fold_left _ (bus w1) w1) in *.
  destruct Hf as (Hmax & Hm & Ho & _ & Hp & _ & Hd).
  exists (pr_loc LOG_DBG MSG_registered
            (pr_loc LOG_DBG (MSG_bus_for_each_dev_returned 0) wf)).
  split; [reflexivity|].
  change (device_mapped wf = true /\ org_sd_probe wf = drv_probe w /\
          drv_probe wf = Some SD_PROBE_SHIM /\ max_dom_size_mib wf = dom_size_mib cfg /\
          devices wf = devices w).
  rewrite Hmax, Hm, Ho, Hp, Hd. repeat split. exact Hmap.
Qed.

(** C5.  Installing with a SATA configuration while org_sd_probe is set
    returns -EEXIST, and uninstalling while org_sd_probe is NULL returns
    -ENOENT; each only logs a message, so the globals, the probe pointer of
    the driver and the device structures stay as they were. *)
Theorem register_twice_unregister_twice cfg wi wu :
  bm_type cfg = BOOT_MEDIA_SATA ->
  org_sd_probe wi <> None ->
  org_sd_probe wu = None ->
  (exists w',
     register_sata_boot_shim K cfg wi = Some (- EEXIST, w') /\
     w' = pr_loc LOG_BUG MSG_already_registered wi /\
     drv_probe w' = drv_probe wi /\
     org_sd_probe w' = org_sd_probe wi /\
     max_dom_size_mib w' = max_dom_size_mib wi /\
     same_engine wi w') /\
  (exists w',
     unregister_sata_boot_shim wu = Some (- ENOENT, w') /\
     w' = pr_loc LOG_BUG MSG_not_registered wu /\
     same_engine wu w').
Proof.
  intros Ht Hi Hu. split.
  - eexists. split; [apply register_twice; assumption|]. repeat split.
  - eexists. unfold unregister_sata_boot_shim. rewrite Hu.
    split; [reflexivity|]. repeat split.
Qed.

(** C9.  An uninstall that succeeds puts the saved pointer back into the
    probe field of the driver, sets org_sd_probe to NULL and max_dom_size_mib
    to 0, and leaves device_mapped and the device structures as they were.
    If the flag was set, a following install with a SATA configuration
    succeeds with the flag still set, and the classifier then answers false
    for every device. *)
Theorem unregister_keeps_device_mapped w org :
  org_sd_probe w = Some org ->
  sd_driver w = DRV_SD ->
  exists w1,
    unregister_sata_boot_shim w = Some (0, w1) /\
    drv_probe w1 = Some org /\
    org_sd_probe w1 = None /\
    max_dom_size_mib w1 = 0 /\
    device_mapped w1 = device_mapped w /\
    devices w1 = devices w /\
    (device_mapped w = true ->
     forall cfg,
       bm_type cfg = BOOT_MEDIA_SATA ->
       exists w2,
         register_sata_boot_shim K cfg w1 = Some (0, w2) /\
         device_mapped w2 = true /\
         forall sdp, fst (is_shim_target sdp w2) = false).
Proof.
  intros Horg Hdrv. unfold unregister_sata_boot_shim. rewrite Horg, Hdrv.
  eexists. split; [reflexivity|]. simpl. repeat split.
  intros Hmap cfg Ht.
  edestruct (register_keeps_mapped cfg) as (w2 & Hreg & Hm & _); [exact Ht | | | |].
  4: { exists w2. split; [exact Hreg|]. split; [exact Hm|].
       intros sdp. apply is_shim_target_when_mapped. exact Hm. }
  - reflexivity.
  - exact Hdrv.
  - exact Hmap.
Qed.

(** C10.  In a world where the shim is installed, an install with a
    configuration that is not of the SATA type returns -EINVAL, not -EEXIST:
    the type is checked first.  That failure, and the -EEXIST one of a SATA
    configuration, only log a message. *)
Theorem register_checks_type_first cfg w :
  bm_type cfg <> BOOT_MEDIA_SATA ->
  org_sd_probe w <> None ->
  (exists w',
     register_sata_boot_shim K cfg w = Some (- EINVAL, w') /\
     max_dom_size_mib w' = max_dom_size_mib w /\
     org_sd_probe w' = org_sd_probe w /\
     drv_probe w' = drv_probe w /\
     same_engine w w') /\
  (forall cfg',
     bm_type cfg' = BOOT_MEDIA_SATA ->
     exists w',
       register_sata_boot_shim K cfg' w = Some (- EEXIST, w') /\
       max_dom_size_mib w' = max_dom_size_mib w /\
       org_sd_probe w' = org_sd_probe w /\
       drv_probe w' = drv_probe w /\
       same_engine w w').
Proof.
  intros Ht Horg. split.
  - eexists. split; [apply register_wrong_type; exact Ht|]. repeat split.
  - intros cfg' Ht'. eexists. split; [apply register_twice; assumption|]. repeat split.
Qed.

End Lifecycle.

(** * Instances on the sample hardware *)

(** The refusal comes after one busy reply: two commands are sent and the
    query ends with the refused one. *)
Lemma hard_refusal_fails_at_once_witness :
  fst (opportunistic_read_capacity 0 refusing_world) = - EINVAL /\
  (exists tl,
     trace (snd (opportunistic_read_capacity 0 refusing_world))
     = EvLog LOG_ERR MSG_drive_refused :: EvScsiCmd 0 cmd_read_cap16 32 :: tl) /\
  commands_issued (snd (opportunistic_read_capacity 0 refusing_world))
  = (commands_issued refusing_world + 1 + 1)%nat /\
  (sleeps (snd (opportunistic_read_capacity 0 refusing_world))
   <= sleeps refusing_world + 1)%nat.
Proof.
  apply (hard_refusal_fails_at_once 0 refusing_world 1).
  - simpl. discriminate.
  - unfold SCSI_CAP_MAX_RETRIES. lia.
  - intros i Hi. assert (Ei : i = 0%nat) by lia. subst i. split.
    + simpl. discriminate.
    + intros (_ & _ & Hk & _). simpl in Hk. discriminate Hk.
  - repeat split; try reflexivity. left. reflexivity.
Defined.

(** Two busy replies and then the size of a 100 MiB disk; three busy replies
    exhaust the budget. *)
Lemma busy_replies_within_budget_witness :
  (fst (opportunistic_read_capacity 0 (busy_world 2))
   = fst (opportunistic_read_capacity 0 (skip_replies 0 2 (busy_world 2))) /\
   0 <= fst (opportunistic_read_capacity 0 (busy_world 2))) /\
  fst (opportunistic_read_capacity 0 (busy_world 3)) = - EIO.
Proof.
  split.
  - apply (busy_replies_within_budget 0 (busy_world 2) 2).
    + simpl. discriminate.
    + unfold SCSI_CAP_MAX_RETRIES. lia.
    + intros i Hi. destruct i as [|[|i]]; [| |lia]; repeat split; reflexivity.
    + reflexivity.
  - apply (busy_replies_within_budget 0 (busy_world 3) 3).
    + simpl. discriminate.
    + intros i Hi. unfold SCSI_CAP_MAX_RETRIES in Hi.
      destruct i as [|[|[|i]]]; [| | |lia];
        (split; [simpl; discriminate | intros (_ & _ & Hk & _); simpl in Hk; discriminate Hk]).
Defined.

(** The device at address 1 is a USB disk. *)
Lemma sd_probe_shim_delegates_witness :
  exists w1,
    sd_probe_shim sample_kernel 1 installed_world
    = Some (kernel_probe sample_kernel 1 1 w1) /\
    (is_sata_disk 1 installed_world = false ->
     w1 = pr_loc LOG_DBG MSG_new_device_not_sata installed_world /\
     devices w1 = devices installed_world /\
     same_engine installed_world w1 /\
     commands_issued w1 = commands_issued installed_world).
Proof.
  apply (sd_probe_shim_delegates sample_kernel 1 installed_world 1).
  reflexivity.
Defined.

(** A SATA disk of 100 MiB against a threshold of 200 MiB. *)
Lemma sd_probe_shim_rewrites_identity_witness :
  exists w1,
    sd_probe_shim sample_kernel 0 installed_world
    = Some (kernel_probe sample_kernel 1 0 w1) /\
    vendor (sdev (devices w1 0%nat)) = CONFIG_SYNO_SATA_DOM_VENDOR sample_kernel /\
    model (sdev (devices w1 0%nat)) = CONFIG_SYNO_SATA_DOM_MODEL sample_kernel /\
    device_mapped w1 = true /\
    (forall p, p <> 0%nat -> devices w1 p = devices installed_world p).
Proof.
  apply (sd_probe_shim_rewrites_identity sample_kernel 0 installed_world 1).
  - reflexivity.
  - reflexivity.
  - change (0 <= 100 <= 200). lia.
  - reflexivity.
Defined.

Lemma register_twice_unregister_twice_witness :
  (exists w',
     register_sata_boot_shim sample_kernel sata_config installed_world
     = Some (- EEXIST, w') /\
     w' = pr_loc LOG_BUG MSG_already_registered installed_world /\
     drv_probe w' = drv_probe installed_world /\
     org_sd_probe w' = org_sd_probe installed_world /\
     max_dom_size_mib w' = max_dom_size_mib installed_world /\
     same_engine installed_world w') /\
  (exists w',
     unregister_sata_boot_shim idle_world = Some (- ENOENT, w') /\
     w' = pr_loc LOG_BUG MSG_not_registered idle_world /\
     same_engine idle_world w').
Proof.
  apply (register_twice_unregister_twice sample_kernel sata_config installed_world idle_world).
  - reflexivity.
  - simpl. discriminate.
  - reflexivity.
Defined.

(** Uninstall after a device has been mapped, then install again. *)
Lemma unregister_keeps_device_mapped_witness :
  exists w1,
    unregister_sata_boot_shim mapped_world = Some (0, w1) /\
    drv_probe w1 = Some (KERNEL_FN 1) /\
    org_sd_probe w1 = None /\
    max_dom_size_mib w1 = 0 /\
    device_mapped w1 = device_mapped mapped_world /\
    devices w1 = devices mapped_world /\
    (device_mapped mapped_world = true ->
     forall cfg,
       bm_type cfg = BOOT_MEDIA_SATA ->
       exists w2,
         register_sata_boot_shim sample_kernel cfg w1 = Some (0, w2) /\
         device_mapped w2 = true /\
         forall sdp, fst (is_shim_target sdp w2) = false).
Proof.
  apply (unregister_keeps_device_mapped sample_kernel mapped_world (KERNEL_FN 1)).
  - reflexivity.
  - reflexivity.
Defined.

Lemma register_checks_type_first_witness :
  (exists w',
     register_sata_boot_shim sample_kernel usb_config installed_world
     = Some (- EINVAL, w') /\
     max_dom_size_mib w' = max_dom_size_mib installed_world /\
     org_sd_probe w' = org_sd_probe installed_world /\
     drv_probe w' = drv_probe installed_world /\
     same_engine installed_world w') /\
  (forall cfg',
     bm_type cfg' = BOOT_MEDIA_SATA ->
     exists w',
       register_sata_boot_shim sample_kernel cfg' installed_world
       = Some (- EEXIST, w') /\
       max_dom_size_mib w' = max_dom_size_mib installed_world /\
       org_sd_probe w' = org_sd_probe installed_world /\
       drv_probe w' = drv_probe installed_world /\
       same_engine installed_world w').
Proof.
  apply (register_checks_type_first sample_kernel usb_config installed_world).
  - simpl. discriminate.
  - simpl. discriminate.
Defined.

(** Two SATA disks of 100 MiB are on the bus when the shim is installed with a
    threshold of 200 MiB, in a kernel whose rescan reconnects.  The first disk
    is reconnected and comes back through the shim with the boot DOM
    identity; the second is visited, gets the warning and keeps its strings. *)
Example reconcile_two_targets :
  match register_sata_boot_shim reconnecting_kernel sata_config twin_world with
  | Some (r, w) =>
      r = 0 /\
      vendor (sdev (devices w 0%nat)) = "SATADOM-"%string /\
      model (sdev (devices w 0%nat)) = "TYPE D 3SE"%string /\
      vendor (sdev (devices w 1%nat)) = "QEMU"%string /\
      model (sdev (devices w 1%nat)) = "HARDDISK"%string /\
      device_mapped w = true /\
      In (EvLog LOG_WRN (MSG_already_shimmed 100 200)) (trace w) /\
      commands_issued w = 3%nat
  | None => False
  end.
Proof.
  vm_compute. repeat split. tauto.
Qed.

(** * Further properties of the capacity prober *)

(** What one pass with the modern command leaves behind, besides what
    [attempt_inv] tells. *)
Lemma attempt16_effects sdp b rr w fl u' out b' w' :
  read_capacity_attempt sdp true b rr w = (fl, u', out, b', w') ->
  frees w' = frees w /\
  (forall p, p <> sdp -> hw w' p = hw w p) /\
  exists tr, trace w' = tr ++ trace w /\ Forall (sent_to sdp) tr.
Proof.
  intros Hatt.
  destruct (attempt_inv _ _ _ _ _ _ _ _ _ _ Hatt) as (_ & _ & Hhw & _).
  split; [|split].
  - revert Hatt. open_attempt. simpl.
    repeat match goal with |- context [if ?c then _ else _] => destruct c end;
      intros H; inversion H; subst; reflexivity.
  - intros p Hp. rewrite Hhw. unfold upd. apply Nat.eqb_neq in Hp. rewrite Hp. reflexivity.
  - revert Hatt. open_attempt. simpl.
    repeat match goal with |- context [if ?c then _ else _] => destruct c end;
      intros H; inversion H; subst; simpl;
      match goal with
      | |- exists tr, ?l = _ /\ _ =>
          match l with
          | ?a :: ?b :: ?c :: trace w => exists [a; b; c]
          | ?a :: ?b :: trace w => exists [a; b]
          | ?a :: trace w => exists [a]
          end
      end;
      (split; [reflexivity|]);
      repeat (apply Forall_cons; [intros p c l E; inversion E; subst; repeat split|]);
      apply Forall_nil.
Qed.

Lemma read_capacity_loop_effects n :
  forall sdp b w ret out b' rr w',
    read_capacity_loop n sdp true b w = (ret, out, b', rr, w') ->
    frees w' = frees w /\
    (forall p, p <> sdp -> hw w' p = hw w p) /\
    (commands_issued w' <= commands_issued w + Nat.max n 1)%nat /\
    (1 <= commands_issued w' - commands_issued w)%nat /\
    (sleeps w' <= sleeps w + Nat.max n 1)%nat /\
    exists tr, trace w' = tr ++ trace w /\ Forall (sent_to sdp) tr.
Proof.
  induction n as [|n IH]; intros sdp b w ret out b' rr w'; rewrite read_capacity_loop_eq;
    destruct (read_capacity_attempt sdp true b _ w) as [[[[fl u1] out1] b1] w1] eqn:Hatt;
    destruct (attempt_inv _ _ _ _ _ _ _ _ _ _ Hatt) as (_ & _ & _ & Hc & Hs & _);
    destruct (attempt16_effects _ _ _ _ _ _ _ _ _ Hatt) as (Hf & Hhw & tr1 & Htr1 & Hall1);
    destruct (attempt16_shape _ _ _ _ _ _ _ _ _ Hatt) as (Hu & _); subst u1.
  - destruct fl; intros H; inversion H; subst;
      (split; [exact Hf | split; [exact Hhw | split; [lia | split; [lia | split; [lia|]]]]]);
      eauto.
  - destruct fl; [| |destruct n as [|n]];
      try (intros H; inversion H; subst;
           (split; [exact Hf | split; [exact Hhw | split; [lia | split; [lia | split; [lia|]]]]]);
           eauto; fail).
    intros H. apply IH in H.
    destruct H as (Hf' & Hhw' & Hc' & Hc1' & Hs' & tr2 & Htr2 & Hall2).
    split; [congruence|].
    split; [intros p Hp; rewrite Hhw', Hhw by exact Hp; reflexivity|].
    split; [lia|]. split; [lia|]. split; [lia|].
    exists (tr2 ++ tr1). rewrite Htr2, Htr1, app_assoc. split; [reflexivity|].
    apply Forall_app; split; assumption.
Qed.

(** X1.  When kmalloc returns NULL the prober reports -EFAULT after one
    critical message: it sends no command, takes no sleep and frees nothing;
    the classifier then answers false. *)
Theorem kmalloc_failure_fails_closed sdp w :
  heap w 0%nat = None ->
  fst (opportunistic_read_capacity sdp w) = - EFAULT /\
  trace (snd (opportunistic_read_capacity sdp w))
  = EvLog LOG_CRT MSG_kmalloc_failure :: trace w /\
  fst (is_shim_target sdp w) = false.
Proof.
  intros Hheap.
  assert (Hc : fst (opportunistic_read_capacity sdp w) = - EFAULT).
  { unfold opportunistic_read_capacity, kmalloc. rewrite Hheap. reflexivity. }
  split; [exact Hc|]. split.
  - unfold opportunistic_read_capacity, kmalloc. rewrite Hheap. reflexivity.
  - destruct (is_shim_target_decision sdp w) as (Hd & _ & _).
    rewrite Hd, Hc. reflexivity.
Qed.

(** X2.  One capacity query sends at least one and at most
    SCSI_CAP_MAX_RETRIES commands once the buffer is allocated, each of them
    READ CAPACITY (16) with a transfer length of 32 bytes to the probed
    device, and sleeps at most SCSI_CAP_MAX_RETRIES times. *)
Theorem prober_effort_is_bounded sdp w :
  let w' := snd (opportunistic_read_capacity sdp w) in
  (commands_issued w' <= commands_issued w + SCSI_CAP_MAX_RETRIES)%nat /\
  (heap w 0%nat <> None -> (commands_issued w < commands_issued w')%nat) /\
  (sleeps w' <= sleeps w + SCSI_CAP_MAX_RETRIES)%nat /\
  exists tr, trace w' = tr ++ trace w /\ Forall (sent_to sdp) tr.
Proof.
  unfold opportunistic_read_capacity, kmalloc.
  destruct (heap w 0%nat) as [b0|].
  - destruct (read_capacity_loop SCSI_CAP_MAX_RETRIES sdp true b0 (set_heap _ w))
      as [[[[ret out] b'] rr] w'] eqn:Hloop.
    apply read_capacity_loop_effects in Hloop
      as (_ & _ & Hc & Hc1 & Hs & tr & Htr & Hall).
    change (commands_issued (set_heap (fun i => heap w (S i)) w))
      with (commands_issued w) in Hc, Hc1.
    change (sleeps (set_heap (fun i => heap w (S i)) w)) with (sleeps w) in Hs.
    change (trace (set_heap (fun i => heap w (S i)) w)) with (trace w) in Htr.
    unfold SCSI_CAP_MAX_RETRIES in *. simpl Nat.max in *.
    destruct ret as [v|]; [|destruct (negb (out =? 0))]; cbn [snd];
      unfold commands_issued, sleeps, kfree, pr_loc, add_event in *; cbn [trace filter is_scsi_cmd is_msleep] in *.
    + split; [lia|]. split; [intros _; lia|]. split; [lia|]. eauto.
    + split; [lia|]. split; [intros _; lia|]. split; [lia|].
      exists (EvKfree :: EvLog LOG_ERR (MSG_preread_failed (Z.of_nat 3 - rr)) :: tr).
      rewrite Htr. split; [reflexivity|].
      repeat (apply Forall_cons; [intros p c l E; discriminate E|]). assumption.
    + split; [lia|]. split; [intros _; lia|]. split; [lia|].
      exists (EvKfree :: tr). rewrite Htr. split; [reflexivity|].
      apply Forall_cons; [intros p c l E; discriminate E | assumption].
  - cbn [snd]. split; [unfold commands_issued; simpl; lia|].
    split; [congruence|]. split; [unfold sleeps; simpl; lia|].
    exists [EvLog LOG_CRT MSG_kmalloc_failure]. split; [reflexivity|].
    apply Forall_cons; [intros p c l E; discriminate E | apply Forall_nil].
Qed.

(** X3.  The buffer is freed exactly once when the prober returns a size or
    -EIO.  When it returns -EINVAL the buffer has been allocated and kfree is
    not called: the return on a hard refusal leaves the loop without freeing.
    When it returns -EFAULT nothing was allocated and nothing is freed. *)
Theorem buffer_is_freed_unless_refused sdp w :
  let c := fst (opportunistic_read_capacity sdp w) in
  let w' := snd (opportunistic_read_capacity sdp w) in
  (c = - EFAULT -> heap w 0%nat = None /\ frees w' = frees w) /\
  (c = - EINVAL -> heap w 0%nat <> None /\ frees w' = frees w) /\
  (c <> - EFAULT -> c <> - EINVAL -> frees w' = S (frees w)).
Proof.
  unfold opportunistic_read_capacity, kmalloc.
  destruct (heap w 0%nat) as [b0|].
  - destruct (read_capacity_loop SCSI_CAP_MAX_RETRIES sdp true b0 (set_heap _ w))
      as [[[[ret out] b'] rr] w'] eqn:Hloop.
    pose proof (read_capacity_loop_inv _ _ _ _ _ _ _ _ _ _ Hloop) as (_ & _ & Hret).
    apply read_capacity_loop_effects in Hloop as (Hf & _).
    change (frees (set_heap (fun i => heap w (S i)) w)) with (frees w) in Hf.
    destruct ret as [v|]; [|destruct (negb (out =? 0))]; cbn [fst snd].
    + rewrite (Hret v eq_refl). unfold EFAULT, EINVAL.
      split; [intros E; discriminate E|]. split; [intros _; split; [discriminate | exact Hf]|].
      intros _ E. contradiction E. reflexivity.
    + unfold EFAULT, EINVAL, EIO.
      split; [intros E; discriminate E|]. split; [intros E; discriminate E|].
      intros _ _. unfold frees in *. simpl. rewrite Hf. reflexivity.
    + pose proof (size_mb_of_range b') as Hr. unfold EFAULT, EINVAL.
      split; [intros E; lia|]. split; [intros E; lia|].
      intros _ _. unfold frees in *. simpl. rewrite Hf. reflexivity.
  - cbn [fst snd]. unfold EFAULT, EINVAL.
    split; [intros _; split; reflexivity|]. split; [intros E; discriminate E|].
    intros E. contradiction E. reflexivity.
Qed.

(** X7.  A capacity query leaves alone everything the engine owns (the
    globals, the driver, the bus, the device structures) and the hardware
    behind every other device; it takes one block from the allocator. *)
Theorem prober_touches_only_its_device sdp w :
  let w' := snd (opportunistic_read_capacity sdp w) in
  same_engine w w' /\
  (forall p, p <> sdp -> hw w' p = hw w p) /\
  (forall i, heap w' i = heap w (S i)).
Proof.
  unfold opportunistic_read_capacity, kmalloc.
  destruct (heap w 0%nat) as [b0|]; [|repeat split].
  destruct (read_capacity_loop SCSI_CAP_MAX_RETRIES sdp true b0 (set_heap _ w))
    as [[[[ret out] b'] rr] w'] eqn:Hloop.
  pose proof (read_capacity_loop_inv _ _ _ _ _ _ _ _ _ _ Hloop) as (He & Hh & _).
  apply read_capacity_loop_effects in Hloop as (_ & Hhw & _).
  assert (He' : same_engine w w') by exact He.
  destruct ret as [v|]; [|destruct (negb (out =? 0))]; cbn [snd];
    (split; [engine_fields He'; repeat split; assumption|]);
    (split; [intros p Hp; apply (Hhw p Hp)|]);
    intros i; change (heap w' i = heap w (S i)); rewrite Hh; reflexivity.
Qed.

(** ** Decoding the reply *)

Lemma be_value_snoc l b : be_value (l ++ [b]) = be_value l * 256 + b mod 256.
Proof. unfold be_value. rewrite fold_left_app. reflexivity. Qed.

Lemma be_bytes_S n v : be_bytes (S n) v = be_bytes n (v / 256) ++ [v mod 256].
Proof.
  unfold be_bytes. rewrite seq_S, map_app. f_equal.
  - apply map_ext_in. intros i Hi. apply in_seq in Hi.
    replace (S n - 1 - i)%nat with (S (n - 1 - i)) by lia.
    rewrite Nat2Z.inj_succ, Z.pow_succ_r by lia.
    rewrite Z.div_div by lia. reflexivity.
  - simpl. replace (n - 0 - n)%nat with 0%nat by lia. simpl.
    rewrite Z.div_1_r. reflexivity.
Qed.

(** Reading back the big-endian bytes of a number gives the number, cut to
    the width. *)
Lemma be_value_be_bytes n : forall v, be_value (be_bytes n v) = v mod 256 ^ Z.of_nat n.
Proof.
  induction n as [|n IH]; intros v.
  - simpl. rewrite Z.mod_1_r. reflexivity.
  - rewrite be_bytes_S, be_value_snoc, IH, Z.mod_mod by lia.
    rewrite Nat2Z.inj_succ, Z.pow_succ_r by lia.
    rewrite Z.rem_mul_r by lia. lia.
Qed.

Lemma length_be_bytes n v : List.length (be_bytes n v) = n.
Proof. unfold be_bytes. rewrite length_map, length_seq. reflexivity. Qed.

Lemma get_unaligned_be_bytes buffer off l :
  (forall i, (i < List.length l)%nat -> byte_at buffer (off + i) = nth i l 0 mod 256) ->
  get_unaligned_be (List.length l) buffer off = be_value l.
Proof.
  unfold get_unaligned_be, be_value.
  assert (Hgen : forall s acc,
             (forall i, (i < List.length l)%nat ->
                        byte_at buffer (off + (s + i)) = nth i l 0 mod 256) ->
             fold_left (fun a i => a * 256 + byte_at buffer (off + i))
                       (seq s (List.length l)) acc
             = fold_left (fun a b => a * 256 + b mod 256) l acc).
  { induction l as [|a t IH]; intros s acc H; simpl; [reflexivity|].
    assert (E : byte_at buffer (off + s) = a mod 256).
    { specialize (H 0%nat). rewrite Nat.add_0_r in H. apply H. simpl. lia. }
    rewrite E. apply IH. intros i Hi. replace (S s + i)%nat with (s + S i)%nat by lia.
    apply (H (S i)). simpl. lia. }
  intros H. apply (Hgen 0%nat 0). intros i Hi. simpl. apply H. exact Hi.
Qed.

Lemma byte_at_got16_data b r i :
  (i < 32)%nat -> (i < List.length (reply_data r))%nat ->
  byte_at (got16 b r) i = nth i (reply_data r) 0 mod 256.
Proof.
  intros H32 Hlen. unfold byte_at, got16, dma_from_device.
  assert (E : (i <? Nat.min 32 (List.length (reply_data r)))%nat = true)
    by (apply Nat.ltb_lt; lia).
  rewrite E. reflexivity.
Qed.

Lemma byte_at_got16_zero b r i :
  (i < 32)%nat -> (List.length (reply_data r) <= i)%nat ->
  byte_at (got16 b r) i = 0.
Proof.
  intros H32 Hlen. unfold byte_at, got16, dma_from_device, memset.
  assert (E : (i <? Nat.min 32 (List.length (reply_data r)))%nat = false)
    by (apply Nat.ltb_ge; lia).
  assert (E' : (i <? 32)%nat = true) by (apply Nat.ltb_lt; lia).
  rewrite E, E'. reflexivity.
Qed.

Lemma to_s64_small q : 0 <= q < 2 ^ 63 -> to_s64 q = q.
Proof.
  intros H. unfold to_s64, to_u64.
  rewrite Z.mod_small by (split; [lia | apply Z.lt_trans with (2 ^ 63); [lia | reflexivity]]).
  destruct (Z.ltb_spec q (2 ^ 63)); [reflexivity | lia].
Qed.

(** The value a query returns when the first command succeeds. *)
Lemma opportunistic_read_capacity_first_success sdp w b0 :
  heap w 0%nat = Some b0 ->
  reply_out (next_reply w sdp 0) = 0 ->
  fst (opportunistic_read_capacity sdp w) = size_mb_of (got16 b0 (next_reply w sdp 0)).
Proof.
  intros Hheap Hok. unfold opportunistic_read_capacity, kmalloc. rewrite Hheap.
  set (wa := set_heap (fun i => heap w (S i)) w).
  assert (Hok1 : reply_out (next_reply wa sdp 0) = 0) by exact Hok.
  assert (Hr : next_reply wa sdp 0 = next_reply w sdp 0) by reflexivity.
  clearbody wa.
  rewrite read_capacity_loop_eq, (attempt16_success sdp b0 _ wa Hok1). simpl.
  rewrite Hr. reflexivity.
Qed.

(** X4.  When the first command succeeds and the device transfers the last
    block address as eight big-endian bytes followed by the block size as four
    big-endian bytes, the prober returns (lba + 1) * size / 2^20, the sum and
    the product taken modulo 2^64; without overflow that is the size of the
    disk in full mebibytes. *)
Theorem capacity_is_decoded_from_reply sdp w lba sector_size rest :
  heap w 0%nat <> None ->
  reply_out (next_reply w sdp 0) = 0 ->
  reply_data (next_reply w sdp 0) = be_bytes 8 lba ++ be_bytes 4 sector_size ++ rest ->
  0 <= lba < 2 ^ 64 ->
  0 <= sector_size < 2 ^ 32 ->
  fst (opportunistic_read_capacity sdp w)
  = to_u64 (to_u64 (lba + 1) * sector_size) / 1048576 /\
  ((lba + 1) * sector_size < 2 ^ 64 ->
   fst (opportunistic_read_capacity sdp w) = (lba + 1) * sector_size / 1048576).
Proof.
  intros Hheap Hok Hdata Hlba Hss.
  destruct (heap w 0%nat) as [b0|] eqn:Hb; [|congruence].
  rewrite (opportunistic_read_capacity_first_success sdp w b0 Hb Hok).
  set (r := next_reply w sdp 0) in *.
  assert (Hlen : (12 <= List.length (reply_data r))%nat).
  { rewrite Hdata, !length_app, !length_be_bytes. lia. }
  assert (H64 : get_unaligned_be64 (got16 b0 r) 0 = lba).
  { unfold get_unaligned_be64.
    rewrite <- (length_be_bytes 8 lba) at 1.
    rewrite get_unaligned_be_bytes.
    - rewrite be_value_be_bytes. apply Z.mod_small. exact Hlba.
    - intros i Hi. rewrite length_be_bytes in Hi. simpl.
      rewrite byte_at_got16_data by lia.
      rewrite Hdata, app_nth1 by (rewrite length_be_bytes; lia). reflexivity. }
  assert (H32 : get_unaligned_be32 (got16 b0 r) 8 = sector_size).
  { unfold get_unaligned_be32.
    rewrite <- (length_be_bytes 4 sector_size) at 1.
    rewrite get_unaligned_be_bytes.
    - rewrite be_value_be_bytes. apply Z.mod_small. exact Hss.
    - intros i Hi. rewrite length_be_bytes in Hi.
      rewrite byte_at_got16_data by lia.
      rewrite Hdata, app_nth2 by (rewrite length_be_bytes; lia).
      rewrite length_be_bytes. replace (8 + i - 8)%nat with i by lia.
      rewrite app_nth1 by (rewrite length_be_bytes; lia). reflexivity. }
  assert (Hval : size_mb_of (got16 b0 r)
                 = to_u64 (to_u64 (lba + 1) * sector_size) / 1048576).
  { unfold size_mb_of. rewrite H64, H32.
    rewrite to_s64_small.
    - rewrite Z.div_div by lia. reflexivity.
    - assert (0 <= to_u64 (to_u64 (lba + 1) * sector_size) < 2 ^ 64)
        by (apply Z.mod_pos_bound; lia).
      split; [apply Z.div_pos; [apply Z.div_pos|]; lia|].
      apply Z.lt_trans with (2 ^ 44); [|reflexivity].
      rewrite Z.div_div by lia. apply Z.div_lt_upper_bound; [lia|].
      change (1024 * 1024 * 2 ^ 44) with (2 ^ 64). lia. }
  rewrite Hval. split; [reflexivity|].
  intros Hfit. destruct (Z.eq_dec sector_size 0) as [E0 | Hpos].
  - rewrite E0, !Z.mul_0_r. reflexivity.
  - assert (Hl : 0 <= lba + 1 < 2 ^ 64) by nia.
    unfold to_u64. rewrite (Z.mod_small (lba + 1)) by exact Hl.
    rewrite Z.mod_small by nia. reflexivity.
Qed.

(** X5.  When a command succeeds but the device transfers at most eight
    bytes, the block size is read from the bytes that scsi_read_cap16 has
    zeroed, and the prober returns 0 MiB. *)
Theorem short_transfer_reads_as_empty sdp w :
  heap w 0%nat <> None ->
  reply_out (next_reply w sdp 0) = 0 ->
  (List.length (reply_data (next_reply w sdp 0)) <= 8)%nat ->
  fst (opportunistic_read_capacity sdp w) = 0.
Proof.
  intros Hheap Hok Hlen.
  destruct (heap w 0%nat) as [b0|] eqn:Hb; [|congruence].
  rewrite (opportunistic_read_capacity_first_success sdp w b0 Hb Hok).
  set (r := next_reply w sdp 0) in *.
  assert (H32 : get_unaligned_be32 (got16 b0 r) 8 = 0).
  { unfold get_unaligned_be32.
    rewrite (get_unaligned_be_ext 4 (got16 b0 r) (fun _ => 0) 8); [reflexivity|].
    intros i Hi. rewrite byte_at_got16_zero by lia. reflexivity. }
  unfold size_mb_of. rewrite H32, Z.mul_0_r. reflexivity.
Qed.

(** ** The buffer and the retries *)

Lemma attempt16_indep sdp b b2 rr w w2 fl u' out b' w' :
  hw w2 = hw w ->
  read_capacity_attempt sdp true b rr w = (fl, u', out, b', w') ->
  exists w2',
    read_capacity_attempt sdp true b2 rr w2
    = (fl, u', out, got16 b2 (next_reply w sdp 0), w2') /\
    hw w2' = hw w'.
Proof.
  intros Hw. open_attempt. rewrite Hw. simpl.
  repeat match goal with |- context [if ?c then _ else _] => destruct c end;
    intros H; inversion H; subst; eexists; (split; [reflexivity|]);
    simpl; rewrite ?Hw; reflexivity.
Qed.

Lemma read_capacity_loop_indep n :
  forall sdp b b2 w w2 ret out bf rr w',
    hw w2 = hw w ->
    read_capacity_loop n sdp true b w = (ret, out, bf, rr, w') ->
    exists bf2 w2',
      read_capacity_loop n sdp true b2 w2 = (ret, out, bf2, rr, w2') /\
      size_mb_of bf = size_mb_of bf2.
Proof.
  induction n as [|n IH]; intros sdp b b2 w w2 ret out bf rr w' Hw;
    rewrite !read_capacity_loop_eq;
    destruct (read_capacity_attempt sdp true b _ w) as [[[[fl u1] out1] b1] w1] eqn:Hatt;
    destruct (attempt16_indep sdp b b2 _ w w2 _ _ _ _ _ Hw Hatt) as (w21 & Hatt2 & Hw1);
    destruct (attempt16_shape _ _ _ _ _ _ _ _ _ Hatt) as (Hu & _ & Hb1); subst u1 b1;
    rewrite Hatt2.
  - destruct fl; intros H; inversion H; subst; do 2 eexists;
      (split; [reflexivity | apply size_mb_of_cap16]).
  - destruct fl; [| |destruct n as [|n]];
      try (intros H; inversion H; subst; do 2 eexists;
           (split; [reflexivity | apply size_mb_of_cap16]); fail).
    intros H. eapply IH; eauto.
Qed.

(** X6.  The stale bytes of the block that kmalloc hands out never reach the
    result: two queries against the same hardware return the same value
    whatever the two blocks held. *)
Theorem stale_bytes_are_never_read sdp w w2 b b2 :
  heap w 0%nat = Some b ->
  heap w2 0%nat = Some b2 ->
  hw w2 = hw w ->
  fst (opportunistic_read_capacity sdp w) = fst (opportunistic_read_capacity sdp w2).
Proof.
  intros Hb Hb2 Hw. unfold opportunistic_read_capacity, kmalloc. rewrite Hb, Hb2.
  destruct (read_capacity_loop SCSI_CAP_MAX_RETRIES sdp true b (set_heap _ w))
    as [[[[ret out] bf] rr] w'] eqn:Hloop.
  eapply (read_capacity_loop_indep _ sdp b b2 _ (set_heap (fun i => heap w2 (S i)) w2))
    in Hloop as (bf2 & w2' & Hloop2 & Hsize); [|exact Hw].
  rewrite Hloop2. destruct ret as [v|]; [reflexivity|].
  cbv beta iota. destruct (negb (out =? 0)); cbn [fst]; [reflexivity | exact Hsize].
Qed.

Lemma attempt16_invalid sdp b rr w :
  invalid_sense (next_reply w sdp 0) ->
  read_capacity_attempt sdp true b rr w
  = (CONTINUE, true, reply_out (next_reply w sdp 0), got16 b (next_reply w sdp 0),
     pr_loc LOG_DBG MSG_invalid_sense (sent16 sdp w)).
Proof.
  intros (Hout & Hv). unfold next_reply in *. open_attempt. simpl.
  unfold scsi_sense_valid in Hv.
  destruct (Z.eqb_spec (reply_out (hw w sdp 0%nat cmd_read_cap16)) 0) as [E | _]; [lia|].
  destruct (Z.gtb_spec (reply_out (hw w sdp 0%nat cmd_read_cap16)) 0) as [_ | E]; [|lia].
  rewrite Hv. reflexivity.
Qed.

(** Replies of a kind that lets the loop go on at a fixed cost in sleep. *)
Lemma read_capacity_loop_skip_cost (P : scsi_reply -> Prop) (k : Z) :
  (forall sdp b rr w,
     P (next_reply w sdp 0) ->
     exists w1,
       read_capacity_attempt sdp true b rr w
       = (CONTINUE, true, reply_out (next_reply w sdp 0),
          got16 b (next_reply w sdp 0), w1) /\
       slept_ms w1 = slept_ms w + k) ->
  forall n read_retry sdp b w,
    (n < read_retry)%nat ->
    (forall i, (i < n)%nat -> P (next_reply w sdp i)) ->
    exists b' w',
      read_capacity_loop read_retry sdp true b w
      = read_capacity_loop (read_retry - n) sdp true b' w' /\
      (forall i, next_reply w' sdp i = next_reply w sdp (n + i)) /\
      slept_ms w' = slept_ms w + k * Z.of_nat n.
Proof.
  intros Hstep. induction n as [|n IH]; intros read_retry sdp b w Hlt HP.
  - exists b, w. rewrite Nat.sub_0_r. split; [reflexivity|].
    split; [intros i; reflexivity | simpl; lia].
  - destruct read_retry as [|[|r]]; try lia.
    destruct (Hstep sdp b (Z.of_nat (S (S r))) w) as (w1 & Hatt & Hs).
    { apply HP. lia. }
    destruct (attempt_inv _ _ _ _ _ _ _ _ _ _ Hatt) as (_ & _ & Hhw & _).
    destruct (IH (S r) sdp (got16 b (next_reply w sdp 0)) w1) as (b' & w' & Heq & Hn' & Hs').
    { lia. }
    { intros i Hi. unfold next_reply. rewrite Hhw. unfold upd. rewrite Nat.eqb_refl.
      apply HP. lia. }
    exists b', w'. rewrite read_capacity_loop_eq, Hatt.
    change (S (S r) - S n)%nat with (S r - n)%nat.
    split; [exact Heq|]. split; [|lia].
    intros i. rewrite Hn'. unfold next_reply. rewrite Hhw. unfold upd.
    rewrite Nat.eqb_refl. reflexivity.
Qed.

Lemma slept_after_retries (P : scsi_reply -> Prop) (k : Z) sdp w n :
  (forall sdp b rr w,
     P (next_reply w sdp 0) ->
     exists w1,
       read_capacity_attempt sdp true b rr w
       = (CONTINUE, true, reply_out (next_reply w sdp 0),
          got16 b (next_reply w sdp 0), w1) /\
       slept_ms w1 = slept_ms w + k) ->
  heap w 0%nat <> None ->
  (n < SCSI_CAP_MAX_RETRIES)%nat ->
  (forall i, (i < n)%nat -> P (next_reply w sdp i)) ->
  reply_out (next_reply w sdp n) = 0 ->
  slept_ms (snd (opportunistic_read_capacity sdp w)) = slept_ms w + k * Z.of_nat n.
Proof.
  intros Hstep Hheap Hn HP Hok. unfold opportunistic_read_capacity, kmalloc.
  destruct (heap w 0%nat) as [b0|]; [|congruence].
  set (wa := set_heap (fun i => heap w (S i)) w).
  destruct (read_capacity_loop_skip_cost P k Hstep n SCSI_CAP_MAX_RETRIES sdp b0 wa Hn HP)
    as (b1 & w1 & Heq & Hnext & Hs).
  assert (Hok1 : reply_out (next_reply w1 sdp 0) = 0).
  { rewrite Hnext, Nat.add_0_r. exact Hok. }
  rewrite Heq, read_capacity_loop_eq, (attempt16_success sdp b1 _ w1 Hok1).
  cbv beta iota. change (negb (0 =? 0)) with false. cbv beta iota. cbn [snd].
  change (slept_ms (kfree (sent16 sdp w1))) with (slept_ms w1).
  rewrite Hs. reflexivity.
Qed.

(** X13.  Every busy reply before the successful one costs one msleep of 500
    ms, and a reply without a valid sense header costs none: after n such
    replies, n below the budget, and a success the query has slept 500 * n ms
    in the first case and not at all in the second. *)
Theorem retries_sleep_only_when_busy sdp w n :
  heap w 0%nat <> None ->
  (n < SCSI_CAP_MAX_RETRIES)%nat ->
  reply_out (next_reply w sdp n) = 0 ->
  ((forall i, (i < n)%nat -> transient_busy (next_reply w sdp i)) ->
   slept_ms (snd (opportunistic_read_capacity sdp w)) = slept_ms w + 500 * Z.of_nat n) /\
  ((forall i, (i < n)%nat -> invalid_sense (next_reply w sdp i)) ->
   slept_ms (snd (opportunistic_read_capacity sdp w)) = slept_ms w).
Proof.
  intros Hheap Hn Hok. split; intros HP.
  - apply (slept_after_retries transient_busy 500); try assumption.
    intros sdp' b rr w0 Hb. eexists. split; [apply attempt16_busy; exact Hb|].
    change (500 + slept_ms w0 = slept_ms w0 + 500). lia.
  - rewrite (slept_after_retries invalid_sense 0 sdp w n); try assumption; [lia|].
    intros sdp' b rr w0 Hb. eexists. split; [apply attempt16_invalid; exact Hb|].
    change (slept_ms w0 = slept_ms w0 + 0). lia.
Qed.

(** * Further properties of the engine *)

Section EngineMore.

Variable K : kernel.

Lemma is_shim_target_rejects sdp w :
  fst (opportunistic_read_capacity sdp w) < 0 \/
  max_dom_size_mib w < fst (opportunistic_read_capacity sdp w) \/
  device_mapped w = true ->
  fst (is_shim_target sdp w) = false.
Proof.
  intros H. destruct (is_shim_target_decision sdp w) as (Hd & _ & _). rewrite Hd.
  destruct H as [H | [H | H]].
  - apply Z.ltb_lt in H. rewrite H. reflexivity.
  - apply Z.leb_gt in H. rewrite H, andb_false_r. reflexivity.
  - rewrite H. apply andb_false_r.
Qed.

(** X8.  A device that is not a SATA disk, or whose capacity could not be
    read or exceeds the threshold, or that is met after a device has been
    mapped, is never handed to scsi_remove_device or to a rescan: what
    on_existing_device does with it is the same under every kernel, and it
    leaves the engine state and the device structures as they were. *)
Theorem non_target_is_never_removed (K' : kernel) dev data w :
  is_sata_disk dev w = false \/
  fst (opportunistic_read_capacity dev w) < 0 \/
  max_dom_size_mib w < fst (opportunistic_read_capacity dev w) \/
  device_mapped w = true ->
  on_existing_device K dev data w = on_existing_device K' dev data w /\
  same_engine w (snd (on_existing_device K dev data w)).
Proof.
  intros H.
  assert (Hskip : is_sata_disk dev w = false \/ fst (is_shim_target dev w) = false).
  { destruct H as [H | H]; [left; exact H | right; apply is_shim_target_rejects; exact H]. }
  split; [|apply on_existing_device_skip; exact Hskip].
  unfold on_existing_device, to_scsi_device.
  destruct (is_sata_disk dev w); simpl; [|reflexivity].
  destruct Hskip as [Hs | Ht]; [discriminate|].
  destruct (is_shim_target dev w) as [target w2]. simpl in Ht. subst target. reflexivity.
Qed.

(** X9.  A SATA disk that is no target (its capacity could not be read or
    exceeds the threshold, or a device has been mapped before) goes to the
    original probe with its vendor and model, every other device structure
    and the three globals as they were. *)
Theorem sd_probe_shim_leaves_non_target dev w a :
  org_sd_probe w = Some (KERNEL_FN a) ->
  is_sata_disk dev w = true ->
  fst (opportunistic_read_capacity dev w) < 0 \/
  max_dom_size_mib w < fst (opportunistic_read_capacity dev w) \/
  device_mapped w = true ->
  exists w1,
    sd_probe_shim K dev w = Some (kernel_probe K a dev w1) /\
    devices w1 = devices w /\
    device_mapped w1 = device_mapped w /\
    same_engine w w1.
Proof.
  intros Horg Hsata Hrej.
  pose proof (is_shim_target_rejects dev w Hrej) as Ht.
  destruct (sd_probe_shim_proxy K dev w) as (w1 & Heq & _ & _ & Hno & _).
  specialize (Hno Hsata Ht).
  destruct (is_shim_target_decision dev w) as (_ & Hf & _).
  rewrite <- Hno in Hf.
  exists w1. rewrite Heq, Horg. split; [reflexivity|].
  pose proof Hf as Hf'. engine_fields Hf'. repeat split; assumption.
Qed.

Lemma is_sata_disk_same_devices dev w w' :
  devices w' = devices w -> is_sata_disk dev w' = is_sata_disk dev w.
Proof. intros H. unfold is_sata_disk. rewrite H. reflexivity. Qed.

(** A bus without SATA disks is walked without a command and without a
    change to the engine, the allocator or the hardware. *)
Lemma reconcile_non_sata data devs :
  forall w,
    (forall dev, In dev devs -> is_sata_disk dev w = false) ->
    let wf := fold_left (fun w dev => snd (on_existing_device K dev data w)) devs w in
    same_engine w wf /\ commands_issued wf = commands_issued w /\ same_env w wf.
Proof.
  induction devs as [|dev rest IH]; intros w Hall; simpl.
  - split; [apply same_engine_refl | split; [reflexivity | split; reflexivity]].
  - assert (Hstep : snd (on_existing_device K dev data w)
                    = pr_loc LOG_DBG (MSG_existing_not_sata (dev_name (devices w dev))) w).
    { unfold on_existing_device. rewrite (Hall dev) by (left; reflexivity). reflexivity. }
    rewrite Hstep.
    destruct (IH (pr_loc LOG_DBG (MSG_existing_not_sata (dev_name (devices w dev))) w))
      as (He & Hc & Hh & Hw).
    { intros d Hd. rewrite (is_sata_disk_same_devices d w) by reflexivity.
      apply Hall. right. exact Hd. }
    split; [|split; [rewrite Hc; reflexivity | split; [exact Hh | exact Hw]]].
    eapply same_engine_trans; [apply same_engine_pr_loc | exact He].
Qed.

(** X11.  On a bus without SATA disks an install with a SATA configuration
    succeeds: it saves the probe pointer of the driver, puts the shim in its
    place and stores the threshold, and it sends no command.  The uninstall
    that follows succeeds as well and puts the saved pointer back; the device
    structures, the bus and device_mapped are as before the install. *)
Theorem install_then_uninstall cfg w f :
  bm_type cfg = BOOT_MEDIA_SATA ->
  org_sd_probe w = None ->
  sd_driver w = DRV_SD ->
  drv_probe w = Some f ->
  (forall dev, In dev (bus w) -> is_sata_disk dev w = false) ->
  exists w1 w2,
    register_sata_boot_shim K cfg w = Some (0, w1) /\
    org_sd_probe w1 = Some f /\
    drv_probe w1 = Some SD_PROBE_SHIM /\
    max_dom_size_mib w1 = dom_size_mib cfg /\
    commands_issued w1 = commands_issued w /\
    unregister_sata_boot_shim w1 = Some (0, w2) /\
    drv_probe w2 = Some f /\
    org_sd_probe w2 = None /\
    max_dom_size_mib w2 = 0 /\
    devices w2 = devices w /\
    bus w2 = bus w /\
    device_mapped w2 = device_mapped w.
Proof.
  intros Ht Horg Hdrv Hprobe Hbus.
  unfold register_sata_boot_shim. rewrite Ht, Horg, Hdrv. simpl.
  unfold probe_existing_devices.
  set (w0 := set_drv_probe _ _).
  rewrite (bus_for_each_dev_all (on_existing_device K) None
             (fun dev w => on_existing_device_returns_0 K dev None w)).
  destruct (reconcile_non_sata None (bus w0) w0) as (He & Hc & _).
  { intros dev Hd. rewrite (is_sata_disk_same_devices dev w) by reflexivity.
    apply Hbus. exact Hd. }
  set (wf := fold_left _ (bus w0) w0) in *.
  destruct He as (Hmax & Hmap & Ho & Hsd & Hp & Hb & Hd).
  set (w1 := pr_loc LOG_DBG MSG_registered
               (pr_loc LOG_DBG (MSG_bus_for_each_dev_returned 0) wf)).
  assert (Ho1 : org_sd_probe w1 = Some f).
  { change (org_sd_probe wf = Some f). rewrite Ho. exact Hprobe. }
  assert (Hsd1 : sd_driver w1 = DRV_SD).
  { change (sd_driver wf = DRV_SD). rewrite Hsd. exact Hdrv. }
  exists w1. eexists.
  split; [reflexivity|].
  split; [exact Ho1|].
  split; [change (drv_probe wf = Some SD_PROBE_SHIM); rewrite Hp; reflexivity|].
  split; [change (max_dom_size_mib wf = dom_size_mib cfg); rewrite Hmax; reflexivity|].
  split; [change (commands_issued wf = commands_issued w); rewrite Hc; reflexivity|].
  unfold unregister_sata_boot_shim. rewrite Ho1, Hsd1.
  split; [reflexivity|]. simpl.
  repeat split; [rewrite Hd | rewrite Hb | rewrite Hmap]; reflexivity.
Qed.

(** X12.  When the lookup of the sd driver gives an error pointer, an
    install (with a SATA configuration, the shim not installed) and an
    uninstall (the shim installed) return the error code of the pointer and
    only log a message: an install writes nothing, and after the failed
    uninstall the shim is still installed. *)
Theorem driver_lookup_error_is_returned cfg wi wu code org :
  sd_driver wi = DRV_ERR code ->
  sd_driver wu = DRV_ERR code ->
  bm_type cfg = BOOT_MEDIA_SATA ->
  org_sd_probe wi = None ->
  org_sd_probe wu = Some org ->
  (exists w',
     register_sata_boot_shim K cfg wi = Some (code, w') /\
     same_engine wi w' /\ bus w' = bus wi /\ commands_issued w' = commands_issued wi) /\
  (exists w',
     unregister_sata_boot_shim wu = Some (code, w') /\
     org_sd_probe w' = Some org /\
     drv_probe w' = drv_probe wu /\
     max_dom_size_mib w' = max_dom_size_mib wu).
Proof.
  intros Hi Hu Ht Hoi Hou. split.
  - unfold register_sata_boot_shim. rewrite Ht, Hoi, Hi. simpl.
    eexists. split; [reflexivity|]. repeat split.
  - unfold unregister_sata_boot_shim. rewrite Hou, Hu.
    eexists. split; [reflexivity|]. repeat split. exact Hou.
Qed.

(** X14.  Entered while org_sd_probe is NULL, the shim ends in a call through
    a NULL pointer, whatever the device. *)
Theorem sd_probe_shim_without_original dev w :
  org_sd_probe w = None -> sd_probe_shim K dev w = None.
Proof.
  intros Horg. destruct (sd_probe_shim_proxy K dev w) as (w1 & Heq & _).
  rewrite Heq, Horg. reflexivity.
Qed.

(** X15.  Install on a bus without SATA disks, then the arrival of a SATA
    disk whose capacity does not exceed the threshold of the configuration
    while nothing has been mapped: the shim enters the probe that the driver
    had before the install, with the vendor and model of the device set to
    the configured ones and device_mapped set. *)
Theorem install_then_arrival cfg w a dev :
  bm_type cfg = BOOT_MEDIA_SATA ->
  org_sd_probe w = None ->
  sd_driver w = DRV_SD ->
  drv_probe w = Some (KERNEL_FN a) ->
  (forall d, In d (bus w) -> is_sata_disk d w = false) ->
  device_mapped w = false ->
  is_sata_disk dev w = true ->
  0 <= fst (opportunistic_read_capacity dev w) <= dom_size_mib cfg ->
  exists w1 w2,
    register_sata_boot_shim K cfg w = Some (0, w1) /\
    sd_probe_shim K dev w1 = Some (kernel_probe K a dev w2) /\
    vendor (sdev (devices w2 dev)) = CONFIG_SYNO_SATA_DOM_VENDOR K /\
    model (sdev (devices w2 dev)) = CONFIG_SYNO_SATA_DOM_MODEL K /\
    device_mapped w2 = true.
Proof.
  intros Ht Horg Hdrv Hprobe Hbus Hmap Hsata Hcap.
  unfold register_sata_boot_shim. rewrite Ht, Horg, Hdrv. simpl.
  unfold probe_existing_devices.
  set (w0 := set_drv_probe _ _).
  rewrite (bus_for_each_dev_all (on_existing_device K) None
             (fun dev w => on_existing_device_returns_0 K dev None w)).
  destruct (reconcile_non_sata None (bus w0) w0) as (He & _ & Henv).
  { intros d Hd. rewrite (is_sata_disk_same_devices d w) by reflexivity.
    apply Hbus. exact Hd. }
  set (wf := fold_left _ (bus w0) w0) in *.
  destruct He as (Hmax & Hm & Ho & _ & _ & _ & Hd).
  set (w1 := pr_loc LOG_DBG MSG_registered
               (pr_loc LOG_DBG (MSG_bus_for_each_dev_returned 0) wf)).
  assert (Ho1 : org_sd_probe w1 = Some (KERNEL_FN a)).
  { change (org_sd_probe wf = Some (KERNEL_FN a)). rewrite Ho. exact Hprobe. }
  assert (Hsata1 : is_sata_disk dev w1 = true).
  { rewrite (is_sata_disk_same_devices dev w); [exact Hsata|].
    change (devices wf = devices w). rewrite Hd. reflexivity. }
  assert (Hcap1 : fst (opportunistic_read_capacity dev w1)
                  = fst (opportunistic_read_capacity dev w)).
  { symmetry. apply opportunistic_read_capacity_env. destruct Henv as (Hh & Hw).
    split; [change (heap wf = heap w); rewrite Hh | change (hw wf = hw w); rewrite Hw];
      reflexivity. }
  assert (Ht1 : fst (is_shim_target dev w1) = true).
  { apply is_shim_target_when_fits.
    - rewrite Hcap1. change (max_dom_size_mib w1) with (max_dom_size_mib wf).
      rewrite Hmax. exact Hcap.
    - change (device_mapped wf = false). rewrite Hm. exact Hmap. }
  destruct (sd_probe_shim_proxy K dev w1) as (w2 & Heq & _ & _ & _ & Hyes).
  destruct (Hyes Hsata1 Ht1) as (Hv & Hmo & Hmp & _).
  exists w1, w2. split; [reflexivity|].
  rewrite Heq, Ho1. repeat split; assumption.
Qed.

End EngineMore.

(** * What the shim sends *)

Lemma only_probes_refl sdp w : only_probes sdp 0 w w.
Proof.
  split; [|reflexivity]. exists []. split; [reflexivity|].
  split; [apply Forall_nil | simpl; lia].
Qed.

Lemma only_probes_trans sdp n m a b c :
  only_probes sdp n a b -> only_probes sdp m b c -> only_probes sdp (n + m) a c.
Proof.
  intros ((tr1 & Ht1 & Hf1 & Hl1) & Hh1) ((tr2 & Ht2 & Hf2 & Hl2) & Hh2). split.
  - exists (tr2 ++ tr1). rewrite Ht2, Ht1, app_assoc. split; [reflexivity|].
    split; [apply Forall_app; split; assumption|].
    rewrite filter_app, length_app. lia.
  - intros p Hp. rewrite Hh2, Hh1 by exact Hp. reflexivity.
Qed.

Lemma only_probes_weaken sdp n m a b :
  (n <= m)%nat -> only_probes sdp n a b -> only_probes sdp m a b.
Proof.
  intros Hle ((tr & Ht & Hf & Hl) & Hh). split; [|exact Hh].
  exists tr. split; [exact Ht|]. split; [exact Hf | lia].
Qed.

(** A step that changes neither the trace nor the hardware. *)
Lemma only_probes_silent sdp w w' :
  trace w' = trace w -> hw w' = hw w -> only_probes sdp 0 w w'.
Proof.
  intros Ht Hh. split; [|intros p _; rewrite Hh; reflexivity].
  exists []. split; [exact Ht|]. split; [apply Forall_nil | simpl; lia].
Qed.

(** A step that adds one event that is no command. *)
Lemma only_probes_event sdp e w :
  is_scsi_cmd e = false -> only_probes sdp 0 w (add_event e w).
Proof.
  intros He. split; [|reflexivity]. exists [e]. split; [reflexivity|]. split.
  - apply Forall_cons; [|apply Forall_nil]. intros p c l E. subst e. discriminate He.
  - simpl. rewrite He. simpl. lia.
Qed.

Lemma attempt16_probes sdp b rr w fl u' out b' w' :
  read_capacity_attempt sdp true b rr w = (fl, u', out, b', w') ->
  only_probes sdp 1 w w'.
Proof.
  intros Hatt.
  destruct (attempt_inv _ _ _ _ _ _ _ _ _ _ Hatt) as (_ & _ & _ & Hc & _).
  destruct (attempt16_effects _ _ _ _ _ _ _ _ _ Hatt) as (_ & Hhw & tr & Htr & Hall).
  split; [|exact Hhw]. exists tr. split; [exact Htr|]. split; [exact Hall|].
  unfold commands_issued in Hc. rewrite Htr, filter_app, length_app in Hc. lia.
Qed.

Lemma read_capacity_loop_probes n :
  forall sdp b w ret out b' rr w',
    read_capacity_loop n sdp true b w = (ret, out, b', rr, w') ->
    only_probes sdp (Nat.max n 1) w w'.
Proof.
  induction n as [|n IH]; intros sdp b w ret out b' rr w'; rewrite read_capacity_loop_eq;
    destruct (read_capacity_attempt sdp true b _ w) as [[[[fl u1] out1] b1] w1] eqn:Hatt;
    pose proof (attempt16_probes _ _ _ _ _ _ _ _ _ Hatt) as Hp;
    destruct (attempt16_shape _ _ _ _ _ _ _ _ _ Hatt) as (Hu & _); subst u1.
  - destruct fl; intros H; inversion H; subst; exact Hp.
  - destruct fl; [| |destruct n as [|n]];
      try (intros H; inversion H; subst;
           apply (only_probes_weaken sdp 1); [lia | exact Hp]).
    intros H. apply IH in H.
    apply (only_probes_weaken sdp (1 + Nat.max (S n) 1)); [lia|].
    eapply only_probes_trans; eassumption.
Qed.

Lemma opportunistic_read_capacity_probes sdp w :
  only_probes sdp SCSI_CAP_MAX_RETRIES w (snd (opportunistic_read_capacity sdp w)).
Proof.
  unfold opportunistic_read_capacity, kmalloc.
  destruct (heap w 0%nat) as [b0|].
  - destruct (read_capacity_loop SCSI_CAP_MAX_RETRIES sdp true b0 (set_heap _ w))
      as [[[[ret out] b'] rr] w'] eqn:Hloop.
    apply read_capacity_loop_probes in Hloop.
    assert (Hl : only_probes sdp SCSI_CAP_MAX_RETRIES w w').
    { apply (only_probes_trans sdp 0 SCSI_CAP_MAX_RETRIES w
               (set_heap (fun i => heap w (S i)) w) w');
        [apply only_probes_silent; reflexivity | exact Hloop]. }
    destruct ret as [v|]; [exact Hl|].
    destruct (negb (out =? 0)); cbn [snd].
    + apply (only_probes_weaken sdp (SCSI_CAP_MAX_RETRIES + (0 + 0))); [lia|].
      eapply only_probes_trans; [exact Hl|].
      eapply only_probes_trans; apply only_probes_event; reflexivity.
    + apply (only_probes_weaken sdp (SCSI_CAP_MAX_RETRIES + 0)); [lia|].
      eapply only_probes_trans; [exact Hl|]. apply only_probes_event. reflexivity.
  - apply (only_probes_weaken sdp (0 + 0)); [lia|].
    eapply only_probes_trans; [|apply only_probes_event; reflexivity].
    apply only_probes_silent; reflexivity.
Qed.

Lemma is_shim_target_probes sdp w :
  only_probes sdp SCSI_CAP_MAX_RETRIES w (snd (is_shim_target sdp w)).
Proof.
  unfold is_shim_target.
  set (w0 := pr_loc LOG_DBG _ w).
  pose proof (opportunistic_read_capacity_probes sdp w0) as Hp.
  destruct (opportunistic_read_capacity sdp w0) as [c w2]. cbn [snd] in Hp.
  assert (H0 : only_probes sdp 0 w w0) by (apply only_probes_event; reflexivity).
  assert (Hend : forall lvl msg,
             only_probes sdp SCSI_CAP_MAX_RETRIES w (pr_loc lvl msg w2)).
  { intros lvl msg.
    apply (only_probes_weaken sdp (0 + (SCSI_CAP_MAX_RETRIES + 0))); [lia|].
    eapply only_probes_trans; [exact H0|].
    eapply only_probes_trans; [exact Hp|]. apply only_probes_event. reflexivity. }
  destruct (c <? 0); [apply Hend|].
  destruct (to_u64 c >? max_dom_size_mib w2); [apply Hend|].
  destruct (device_mapped w2); apply Hend.
Qed.

Section ShimFrame.

Variable K : kernel.

(** X10.  Whatever arrives, between the entry into the shim and the call of
    the original probe nothing is sent but at most SCSI_CAP_MAX_RETRIES
    commands READ CAPACITY (16) to the arriving device; the hardware and the
    structure of every other device are as they were. *)
Theorem sd_probe_shim_queries_only_its_device dev w a :
  org_sd_probe w = Some (KERNEL_FN a) ->
  exists w1,
    sd_probe_shim K dev w = Some (kernel_probe K a dev w1) /\
    (exists tr,
       trace w1 = tr ++ trace w /\
       Forall (sent_to dev) tr /\
       (List.length (filter is_scsi_cmd tr) <= SCSI_CAP_MAX_RETRIES)%nat) /\
    (forall p, p <> dev -> hw w1 p = hw w p) /\
    (forall p, p <> dev -> devices w1 p = devices w p).
Proof.
  intros Horg.
  assert (Hgen : exists w1,
             sd_probe_shim K dev w = call_probe K (org_sd_probe w) dev w1 /\
             only_probes dev SCSI_CAP_MAX_RETRIES w w1 /\
             forall p, p <> dev -> devices w1 p = devices w p).
  { unfold sd_probe_shim, to_scsi_device.
    destruct (is_sata_disk dev w); simpl.
    - pose proof (is_shim_target_probes dev w) as Hp.
      destruct (is_shim_target_decision dev w) as (_ & Hf & _).
      destruct (is_shim_target dev w) as [target w2]. cbn [snd] in Hp, Hf.
      destruct Hf as (_ & _ & Ho & _ & _ & _ & Hd).
      destruct target.
      + eexists. split; [rewrite <- Ho; reflexivity|]. split.
        * apply (only_probes_weaken dev (SCSI_CAP_MAX_RETRIES + 0)); [lia|].
          apply (only_probes_trans dev _ _ w w2); [exact Hp|].
          split; [|intros p _; reflexivity].
          exists [EvLog LOG_DBG
                    (MSG_shimming_device (CONFIG_SYNO_SATA_DOM_VENDOR K)
                       (CONFIG_SYNO_SATA_DOM_MODEL K))].
          split; [reflexivity|]. split; [|simpl; lia].
          apply Forall_cons; [intros p c l E; discriminate E | apply Forall_nil].
        * intros p Hp'. simpl. unfold upd. simpl. apply Nat.eqb_neq in Hp'.
          rewrite !Hp', Hd. reflexivity.
      + exists w2. rewrite Ho. split; [reflexivity|]. split; [exact Hp|].
        intros p _. rewrite Hd. reflexivity.
    - eexists. split; [reflexivity|]. split.
      + apply (only_probes_weaken dev 0); [lia|]. apply only_probes_event. reflexivity.
      + intros p _. reflexivity. }
  destruct Hgen as (w1 & Heq & ((tr & Ht & Hf & Hl) & Hh) & Hd).
  exists w1. rewrite Heq, Horg. split; [reflexivity|].
  split; [exists tr; repeat split; assumption|]. split; assumption.
Qed.

End ShimFrame.

(** * Further instances on the sample hardware *)

Lemma kmalloc_failure_fails_closed_witness :
  fst (opportunistic_read_capacity 0 oom_world) = - EFAULT /\
  trace (snd (opportunistic_read_capacity 0 oom_world))
  = EvLog LOG_CRT MSG_kmalloc_failure :: trace oom_world /\
  fst (is_shim_target 0 oom_world) = false.
Proof.
  apply (kmalloc_failure_fails_closed 0 oom_world). reflexivity.
Defined.

(** The 100 MiB disk: 204800 blocks of 512 bytes. *)
Lemma capacity_is_decoded_from_reply_witness :
  fst (opportunistic_read_capacity 0 installed_world)
  = to_u64 (to_u64 (204799 + 1) * 512) / 1048576 /\
  ((204799 + 1) * 512 < 2 ^ 64 ->
   fst (opportunistic_read_capacity 0 installed_world) = (204799 + 1) * 512 / 1048576).
Proof.
  apply (capacity_is_decoded_from_reply 0 installed_world 204799 512 (repeat 0 20%nat)).
  - simpl. discriminate.
  - reflexivity.
  - reflexivity.
  - lia.
  - lia.
Defined.

Lemma short_transfer_reads_as_empty_witness :
  fst (opportunistic_read_capacity 0 short_reply_world) = 0.
Proof.
  apply (short_transfer_reads_as_empty 0 short_reply_world).
  - simpl. discriminate.
  - reflexivity.
  - simpl. lia.
Defined.

Lemma stale_bytes_are_never_read_witness :
  fst (opportunistic_read_capacity 0 installed_world)
  = fst (opportunistic_read_capacity 0 other_stale_world).
Proof.
  apply (stale_bytes_are_never_read 0 installed_world other_stale_world
           stale_block (fun i => Z.of_nat i)); reflexivity.
Defined.

Lemma retries_sleep_only_when_busy_witness :
  slept_ms (snd (opportunistic_read_capacity 0 (busy_world 2)))
  = slept_ms (busy_world 2) + 500 * Z.of_nat 2 /\
  slept_ms (snd (opportunistic_read_capacity 0 (invalid_sense_world 2)))
  = slept_ms (invalid_sense_world 2).
Proof.
  split.
  - apply (retries_sleep_only_when_busy 0 (busy_world 2) 2).
    + simpl. discriminate.
    + unfold SCSI_CAP_MAX_RETRIES. lia.
    + reflexivity.
    + intros i Hi. destruct i as [|[|i]]; [| |lia]; repeat split; reflexivity.
  - apply (retries_sleep_only_when_busy 0 (invalid_sense_world 2) 2).
    + simpl. discriminate.
    + unfold SCSI_CAP_MAX_RETRIES. lia.
    + reflexivity.
    + intros i Hi. destruct i as [|[|i]]; [| |lia]; split; reflexivity.
Defined.

(** A SATA disk of 300 MiB against a threshold of 200 MiB. *)
Lemma non_target_is_never_removed_witness :
  on_existing_device sample_kernel 0 None big_disk_world
  = on_existing_device reconnecting_kernel 0 None big_disk_world /\
  same_engine big_disk_world (snd (on_existing_device sample_kernel 0 None big_disk_world)).
Proof.
  apply (non_target_is_never_removed sample_kernel reconnecting_kernel 0 None big_disk_world).
  right. right. left. change (200 < 300). lia.
Defined.

Lemma sd_probe_shim_leaves_non_target_witness :
  exists w1,
    sd_probe_shim sample_kernel 0 big_disk_world
    = Some (kernel_probe sample_kernel 1 0 w1) /\
    devices w1 = devices big_disk_world /\
    device_mapped w1 = device_mapped big_disk_world /\
    same_engine big_disk_world w1.
Proof.
  apply (sd_probe_shim_leaves_non_target sample_kernel 0 big_disk_world 1).
  - reflexivity.
  - reflexivity.
  - right. left. change (200 < 300). lia.
Defined.

Lemma sd_probe_shim_queries_only_its_device_witness :
  exists w1,
    sd_probe_shim sample_kernel 0 installed_world
    = Some (kernel_probe sample_kernel 1 0 w1) /\
    (exists tr,
       trace w1 = tr ++ trace installed_world /\
       Forall (sent_to 0) tr /\
       (List.length (filter is_scsi_cmd tr) <= SCSI_CAP_MAX_RETRIES)%nat) /\
    (forall p, p <> 0%nat -> hw w1 p = hw installed_world p) /\
    (forall p, p <> 0%nat -> devices w1 p = devices installed_world p).
Proof.
  apply (sd_probe_shim_queries_only_its_device sample_kernel 0 installed_world 1).
  reflexivity.
Defined.

Lemma install_then_uninstall_witness :
  exists w1 w2,
    register_sata_boot_shim sample_kernel sata_config usb_only_world = Some (0, w1) /\
    org_sd_probe w1 = Some (KERNEL_FN 1) /\
    drv_probe w1 = Some SD_PROBE_SHIM /\
    max_dom_size_mib w1 = dom_size_mib sata_config /\
    commands_issued w1 = commands_issued usb_only_world /\
    unregister_sata_boot_shim w1 = Some (0, w2) /\
    drv_probe w2 = Some (KERNEL_FN 1) /\
    org_sd_probe w2 = None /\
    max_dom_size_mib w2 = 0 /\
    devices w2 = devices usb_only_world /\
    bus w2 = bus usb_only_world /\
    device_mapped w2 = device_mapped usb_only_world.
Proof.
  apply (install_then_uninstall sample_kernel sata_config usb_only_world (KERNEL_FN 1)).
  - reflexivity.
  - reflexivity.
  - reflexivity.
  - reflexivity.
  - intros dev Hd. simpl in Hd. destruct Hd as [E | [E | []]]; subst dev; reflexivity.
Defined.

Lemma driver_lookup_error_is_returned_witness :
  (exists w',
     register_sata_boot_shim sample_kernel sata_config (no_driver_world None)
     = Some (-19, w') /\
     same_engine (no_driver_world None) w' /\
     bus w' = bus (no_driver_world None) /\
     commands_issued w' = commands_issued (no_driver_world None)) /\
  (exists w',
     unregister_sata_boot_shim (no_driver_world (Some (KERNEL_FN 1))) = Some (-19, w') /\
     org_sd_probe w' = Some (KERNEL_FN 1) /\
     drv_probe w' = drv_probe (no_driver_world (Some (KERNEL_FN 1))) /\
     max_dom_size_mib w' = max_dom_size_mib (no_driver_world (Some (KERNEL_FN 1)))).
Proof.
  apply (driver_lookup_error_is_returned sample_kernel sata_config
           (no_driver_world None) (no_driver_world (Some (KERNEL_FN 1))) (-19)
           (KERNEL_FN 1)); reflexivity.
Defined.

Lemma sd_probe_shim_without_original_witness :
  sd_probe_shim sample_kernel 0 idle_world = None.
Proof.
  apply (sd_probe_shim_without_original sample_kernel 0 idle_world). reflexivity.
Defined.

(** The address 0 of [usb_only_world] holds the SATA disk of 100 MiB; it is
    not on the bus when the shim is installed with a threshold of 200 MiB. *)
Lemma install_then_arrival_witness :
  exists w1 w2,
    register_sata_boot_shim sample_kernel sata_config usb_only_world = Some (0, w1) /\
    sd_probe_shim sample_kernel 0 w1 = Some (kernel_probe sample_kernel 1 0 w2) /\
    vendor (sdev (devices w2 0%nat)) = CONFIG_SYNO_SATA_DOM_VENDOR sample_kernel /\
    model (sdev (devices w2 0%nat)) = CONFIG_SYNO_SATA_DOM_MODEL sample_kernel /\
    device_mapped w2 = true.
Proof.
  apply (install_then_arrival sample_kernel sata_config usb_only_world 1 0).
  - reflexivity.
  - reflexivity.
  - reflexivity.
  - reflexivity.
  - intros d Hd. simpl in Hd. destruct Hd as [E | [E | []]]; subst d; reflexivity.
  - reflexivity.
  - reflexivity.
  - change (0 <= 100 <= 200). lia.
Defined.
